(** * os_server: reconciling one compute instance against a declared state

    A shallow embedding of [cloud/openstack/os_server.py].  The module talks
    to two collaborators that live outside the file: the argument layer
    ([AnsibleModule]) and the cloud client ([shade]).  The module's own
    functions are embedded over an interface of the cloud client, every call
    to it being recorded in a trace; a reference cloud is given further down
    for the properties that depend on what the provider does. *)

From Stdlib Require Import ZArith List Bool Lia Ascii String.
From stdpp Require Import base strings list gmap.
Import ListNotations.

Open Scope string_scope.
Open Scope list_scope.

(** ** Python values *)

(** A [dict] with string keys and string values ([nics] entries). *)
Abbreviation dict := (gmap string string).

(** Truthiness of the values the module tests with [if x] / [if not x]. *)
Definition truthy_str (o : option string) : bool :=
  match o with
  | Some s => negb (String.eqb s "")
  | None => false
  end.

Definition truthy_int (o : option Z) : bool :=
  match o with
  | Some z => negb (Z.eqb z 0)
  | None => false
  end.

Definition truthy_list {A : Type} (o : option (list A)) : bool :=
  match o with
  | Some (_ :: _) => true
  | _ => false
  end.

(** [x in l] on a list of strings. *)
Definition py_in (x : string) (l : list string) : bool :=
  existsb (String.eqb x) l.

(** [s.split(',')]. *)
Fixpoint split_comma (s : string) : list string :=
  match s with
  | EmptyString => [EmptyString]
  | String c rest =>
      if Ascii.eqb c ","%char then EmptyString :: split_comma rest
      else match split_comma rest with
           | h :: t => String c h :: t
           | [] => [String c EmptyString]
           end
  end.

(** [d[k] = v if v] for the optional boot arguments: the key is present only
    when the parameter is truthy. *)
Definition keep_truthy (o : option string) : option string :=
  if truthy_str o then o else None.

(** ** Data model *)

Inductive state_choice := present | absent.

Inductive addr_type := fixed | floating.

(** One interface entry of a server's address map: ['addr'] and
    ['OS-EXT-IPS:type']. *)
Record Address := { addr : string; ip_type : addr_type }.

Record Server := {
  server_id : string;
  server_name : string;
  status : string;
  addresses : list (string * list Address)
}.

Record Flavor := { flavor_id : string; flavor_name : string; ram : Z }.

Record Network := { network_id : string; network_name : string }.

Definition Hostvars := list (string * string).

(** What the caller supplied: [None] is a key absent from the task. *)
Module args.
Record t := {
  name : option string;
  image : option string;
  image_exclude : option string;
  flavor : option string;
  flavor_ram : option Z;
  flavor_include : option string;
  key_name : option string;
  security_groups : option string;
  nics : option (list dict);
  meta : option (list (string * string));
  userdata : option string;
  config_drive : option bool;
  auto_floating_ip : option bool;
  floating_ips : option (list string);
  floating_ip_pools : option (list string);
  root_volume : option string;
  terminate_volume : option bool;
  state : option state_choice;
  wait : option bool;
  timeout : option Z;
  region_name : option string;
  availability_zone : option string
}.
End args.

(** [module.params]: the supplied values with the defaults of
    [argument_spec] filled in. *)
Module params.
Record t := {
  name : string;
  image : option string;
  image_exclude : option string;
  flavor : option string;
  flavor_ram : option Z;
  flavor_include : option string;
  key_name : option string;
  security_groups : string;
  nics : list dict;
  meta : option (list (string * string));
  userdata : option string;
  config_drive : bool;
  auto_floating_ip : bool;
  floating_ips : option (list string);
  floating_ip_pools : option (list string);
  root_volume : option string;
  terminate_volume : bool;
  state : state_choice;
  wait : bool;
  timeout : Z;
  region_name : option string;
  availability_zone : option string
}.
End params.

(** The arguments of [cloud.create_server]: the keyword arguments written at
    the call and the assembled [bootkwargs]. *)
Record create_args := {
  ca_ip_pool : option (list string);
  ca_ips : option (list string);
  ca_auto_ip : bool;
  ca_root_volume : option string;
  ca_terminate_volume : bool;
  ca_wait : bool;
  ca_timeout : Z;
  bk_name : string;
  bk_image : option string;
  bk_flavor : string;
  bk_nics : list dict;
  bk_meta : option (list (string * string));
  bk_security_groups : list string;
  bk_userdata : option string;
  bk_config_drive : bool;
  bk_region_name : option string;
  bk_key_name : option string;
  bk_availability_zone : option string
}.

(** ** Outcomes and the cloud interface *)

Inductive exn :=
| OpenStackCloudException (message : string) (extra_data : option string)
| Exception (message : string).

Definition exn_message (e : exn) : string :=
  match e with
  | OpenStackCloudException m _ => m
  | Exception m => m
  end.

(** [module.exit_json(...)]: either the server form of [_exit_hostvars] or the
    [result=] form. *)
Inductive exit_result :=
| exit_server (changed : bool) (server : Server) (id : string) (openstack : Hostvars)
| exit_result_of (changed : bool) (result : string).

Definition changed_of (r : exit_result) : bool :=
  match r with
  | exit_server c _ _ _ => c
  | exit_result_of c _ => c
  end.

(** [module.fail_json(...)]: the argument layer's refusals, and the module's
    own messages. *)
Inductive failure :=
| mutually_exclusive (a b : string)
| missing_required (k : string)
| fail_msg (msg : string) (extra_data : option string).

Inductive outcome (A : Type) :=
| Return (a : A)
| ExitJson (r : exit_result)
| FailJson (f : failure)
| Raised (e : exn).
Arguments Return {A} a.
Arguments ExitJson {A} r.
Arguments FailJson {A} f.
Arguments Raised {A} e.

(** Every call that leaves the module for the cloud client. *)
Inductive Call :=
| c_openstack_cloud (cloud_params : params.t)
| c_get_server (name : string)
| c_get_image_id (image exclude : option string)
| c_get_flavor (ref : string)
| c_get_flavor_by_ram (ram : option Z) (include : option string)
| c_get_network (name : string)
| c_get_port (name : string)
| c_create_server (a : create_args)
| c_delete_server (name : string) (wait : bool) (timeout : Z)
| c_add_ips_to_server (server : Server) (auto_ip : bool)
    (ips ip_pool : option (list string))
| c_add_ip_list (server : Server) (ips : list string)
| c_remove_floating_ip (server : string) (address : string)
| c_get_hostvars_from_server (server : Server).

Definition res (A : Type) : Type := exn + A.

(** The operations of the cloud client the module uses, over a provider
    state [W].  A lookup that finds nothing answers [None]. *)
Class shade_cloud (W : Type) := {
  openstack_cloud : params.t -> W -> res unit * W;
  get_server : string -> W -> res (option Server) * W;
  get_image_id : option string -> option string -> W -> res (option string) * W;
  get_flavor : string -> W -> res (option Flavor) * W;
  get_flavor_by_ram : option Z -> option string -> W -> res (option Flavor) * W;
  get_network : string -> W -> res (option Network) * W;
  get_port : string -> W -> res (option Network) * W;
  create_server : create_args -> W -> res Server * W;
  delete_server : string -> bool -> Z -> W -> res unit * W;
  add_ips_to_server :
    Server -> bool -> option (list string) -> option (list string) ->
    W -> res Server * W;
  add_ip_list : Server -> list string -> W -> res Server * W;
  remove_floating_ip : string -> string -> W -> res unit * W;
  get_hostvars_from_server : Server -> W -> res Hostvars * W
}.

(** ** The module's monad: provider state, call trace, early exits *)

Definition M (W A : Type) : Type := W * list Call -> outcome A * (W * list Call).

Definition ret {W A : Type} (a : A) : M W A := fun s => (Return a, s).

Definition bind {W A B : Type} (m : M W A) (k : A -> M W B) : M W B :=
  fun s =>
    match m s with
    | (Return a, s') => k a s'
    | (ExitJson r, s') => (ExitJson r, s')
    | (FailJson f, s') => (FailJson f, s')
    | (Raised e, s') => (Raised e, s')
    end.

Notation "x <- m ;; k" := (bind m (fun x => k))
  (at level 100, m at next level, right associativity).
Notation "m ;;; k" := (bind m (fun _ => k))
  (at level 100, right associativity).

Definition exit_json {W A : Type} (r : exit_result) : M W A :=
  fun s => (ExitJson r, s).

Definition fail_json {W A : Type} (f : failure) : M W A :=
  fun s => (FailJson f, s).

(** A call to the cloud client: logged, then answered by the provider. *)
Definition call {W A : Type} (c : Call) (op : W -> res A * W) : M W A :=
  fun s =>
    let '(r, w') := op (fst s) in
    (match r with inr a => Return a | inl e => Raised e end, (w', snd s ++ [c])).

(** [try: m except ...: h e]; [h] answers [None] for an exception the
    [except] clause does not match. *)
Definition try_except {W A : Type} (m : M W A) (h : exn -> option (M W A)) : M W A :=
  fun s =>
    match m s with
    | (Raised e, s') =>
        match h e with
        | Some k => k s'
        | None => (Raised e, s')
        end
    | r => r
    end.

Definition run {W A : Type} (m : M W A) (w : W) : outcome A * (W * list Call) :=
  m (w, []).

(** ** The module *)

Definition state_eqb (a b : state_choice) : bool :=
  match a, b with
  | present, present | absent, absent => true
  | _, _ => false
  end.

Definition addr_type_eqb (a b : addr_type) : bool :=
  match a, b with
  | fixed, fixed | floating, floating => true
  | _, _ => false
  end.

Definition nonempty {A : Type} (l : list A) : bool :=
  match l with
  | [] => false
  | _ :: _ => true
  end.

Definition supplied {A : Type} (k : string) (o : option A) : list string :=
  match o with
  | Some _ => [k]
  | None => []
  end.

(** The keys of the task's arguments ([term in self.params] of the argument
    layer, before any default is filled in). *)
Definition supplied_keys (a : args.t) : list string :=
  supplied "name" (args.name a) ++ supplied "image" (args.image a) ++
  supplied "image_exclude" (args.image_exclude a) ++
  supplied "flavor" (args.flavor a) ++
  supplied "flavor_ram" (args.flavor_ram a) ++
  supplied "flavor_include" (args.flavor_include a) ++
  supplied "key_name" (args.key_name a) ++
  supplied "security_groups" (args.security_groups a) ++
  supplied "nics" (args.nics a) ++ supplied "meta" (args.meta a) ++
  supplied "userdata" (args.userdata a) ++
  supplied "config_drive" (args.config_drive a) ++
  supplied "auto_floating_ip" (args.auto_floating_ip a) ++
  supplied "floating_ips" (args.floating_ips a) ++
  supplied "floating_ip_pools" (args.floating_ip_pools a) ++
  supplied "root_volume" (args.root_volume a) ++
  supplied "terminate_volume" (args.terminate_volume a) ++
  supplied "state" (args.state a) ++ supplied "wait" (args.wait a) ++
  supplied "timeout" (args.timeout a) ++
  supplied "region_name" (args.region_name a) ++
  supplied "availability_zone" (args.availability_zone a).

(** [argument_spec] of [main]: the defaults of the keys the caller left out.
    [wait], [timeout], [region_name] and [availability_zone] come from the
    shared OpenStack argument spec; their defaults are the documented ones. *)
Definition argument_spec (name : string) (a : args.t) : params.t :=
  {| params.name := name;
     params.image := args.image a;
     params.image_exclude :=
       Some (default "(deprecated)" (args.image_exclude a));
     params.flavor := args.flavor a;
     params.flavor_ram := args.flavor_ram a;
     params.flavor_include := args.flavor_include a;
     params.key_name := args.key_name a;
     params.security_groups := default "default" (args.security_groups a);
     params.nics := default [] (args.nics a);
     params.meta := args.meta a;
     params.userdata := args.userdata a;
     params.config_drive := default false (args.config_drive a);
     params.auto_floating_ip := default true (args.auto_floating_ip a);
     params.floating_ips := args.floating_ips a;
     params.floating_ip_pools := args.floating_ip_pools a;
     params.root_volume := args.root_volume a;
     params.terminate_volume := default false (args.terminate_volume a);
     params.state := default present (args.state a);
     params.wait := default true (args.wait a);
     params.timeout := default 180%Z (args.timeout a);
     params.region_name := args.region_name a;
     params.availability_zone := args.availability_zone a |}.

(** [mutually_exclusive=[...]] of [main]. *)
Definition mutually_exclusive_pairs : list (string * string) :=
  [ ("auto_floating_ip", "floating_ips");
    ("auto_floating_ip", "floating_ip_pools");
    ("floating_ips", "floating_ip_pools");
    ("flavor", "flavor_ram");
    ("image", "root_volume") ].

(** [cloud_params.pop('userdata', None)]. *)
Definition pop_userdata (p : params.t) : params.t :=
  {| params.name := params.name p;
     params.image := params.image p;
     params.image_exclude := params.image_exclude p;
     params.flavor := params.flavor p;
     params.flavor_ram := params.flavor_ram p;
     params.flavor_include := params.flavor_include p;
     params.key_name := params.key_name p;
     params.security_groups := params.security_groups p;
     params.nics := params.nics p;
     params.meta := params.meta p;
     params.userdata := None;
     params.config_drive := params.config_drive p;
     params.auto_floating_ip := params.auto_floating_ip p;
     params.floating_ips := params.floating_ips p;
     params.floating_ip_pools := params.floating_ip_pools p;
     params.root_volume := params.root_volume p;
     params.terminate_volume := params.terminate_volume p;
     params.state := params.state p;
     params.wait := params.wait p;
     params.timeout := params.timeout p;
     params.region_name := params.region_name p;
     params.availability_zone := params.availability_zone p |}.

(** Modelled from the spec: [openstack_find_nova_addresses] of the shared
    OpenStack utilities is not part of the module's file.  The address map is
    network name -> list of {address, type}; the helper collects, network by
    network, the addresses whose type is the requested one. *)
Definition openstack_find_nova_addresses
  (addresses : list (string * list Address)) (ext_tag : addr_type) : list string :=
  flat_map
    (fun kv =>
       map addr
         (List.filter (fun i => addr_type_eqb (ip_type i) ext_tag) (snd kv)))
    addresses.

Section os_server.

Context {W : Type} {cloud : shade_cloud W}.

(** Whether [import shade] succeeded. *)
Variable HAS_SHADE : bool.

(** Modelled from the spec: the enforcement of [mutually_exclusive] belongs to
    the argument layer ([AnsibleModule]), which is not part of the module's
    file.  A pair conflicts when both of its fields are simultaneously set,
    that is, when both keys were supplied by the caller; the check runs on
    the supplied arguments, before the defaults are filled in. *)
Fixpoint _check_mutually_exclusive (a : args.t) (spec : list (string * string))
  : M W unit :=
  match spec with
  | [] => ret tt
  | (x, y) :: rest =>
      if py_in x (supplied_keys a) && py_in y (supplied_keys a)
      then fail_json (mutually_exclusive x y)
      else _check_mutually_exclusive a rest
  end.

(** Modelled from the spec: [AnsibleModule(argument_spec, **module_kwargs)],
    not part of the module's file: the mutual-exclusion check, the required
    [name], then the defaults of [argument_spec]. *)
Definition AnsibleModule (a : args.t) : M W params.t :=
  _check_mutually_exclusive a mutually_exclusive_pairs ;;;
  match args.name a with
  | None => fail_json (missing_required "name")
  | Some n => ret (argument_spec n a)
  end.

Definition _exit_hostvars {A : Type} (server : Server) (changed : bool) : M W A :=
  hostvars <- call (c_get_hostvars_from_server server)
                   (get_hostvars_from_server server) ;;
  exit_json (exit_server changed server (server_id server) hostvars).

(** The [for net in module.params['nics']] loop of [_network_args], [args]
    being the list built so far. *)
Fixpoint _network_args_loop (nics : list dict) (args : list dict) : M W (list dict) :=
  match nics with
  | [] => ret args
  | net :: rest =>
      if truthy_str (net !! "net-id") then
        _network_args_loop rest (args ++ [net])
      else if truthy_str (net !! "net-name") then
        by_name <- call (c_get_network (default "" (net !! "net-name")))
                        (get_network (default "" (net !! "net-name"))) ;;
        match by_name with
        | None =>
            fail_json
              (fail_msg ("Could not find network by net-name: "
                         +:+ default "" (net !! "net-name")) None)
        | Some n =>
            _network_args_loop rest (args ++ [{[ "net-id" := network_id n ]}])
        end
      else if truthy_str (net !! "port-id") then
        _network_args_loop rest (args ++ [net])
      else if truthy_str (net !! "port-name") then
        by_name <- call (c_get_port (default "" (net !! "port-name")))
                        (get_port (default "" (net !! "port-name"))) ;;
        match by_name with
        | None =>
            fail_json
              (fail_msg ("Could not find port by port-name: "
                         +:+ default "" (net !! "port-name")) None)
        | Some n =>
            _network_args_loop rest (args ++ [{[ "port-id" := network_id n ]}])
        end
      else _network_args_loop rest args
  end.

Definition _network_args (p : params.t) : M W (list dict) :=
  _network_args_loop (params.nics p) [].

Definition _delete_server (p : params.t) : M W unit :=
  try_except
    (call (c_delete_server (params.name p) (params.wait p) (params.timeout p))
          (delete_server (params.name p) (params.wait p) (params.timeout p)))
    (fun e =>
       Some (fail_json (fail_msg ("Error in deleting vm: " +:+ exn_message e) None))) ;;;
  exit_json (exit_result_of true "deleted").

Definition _create_server (p : params.t) : M W unit :=
  let flavor := params.flavor p in
  let flavor_ram := params.flavor_ram p in
  let flavor_include := params.flavor_include p in
  image_id <-
    (if negb (truthy_str (params.root_volume p)) then
       call (c_get_image_id (params.image p) (params.image_exclude p))
            (get_image_id (params.image p) (params.image_exclude p))
     else ret None) ;;
  flavor_dict <-
    (if truthy_str flavor then
       flavor_dict <- call (c_get_flavor (default "" flavor))
                           (get_flavor (default "" flavor)) ;;
       match flavor_dict with
       | None =>
           fail_json (fail_msg ("Could not find flavor " +:+ default "" flavor) None)
       | Some f => ret f
       end
     else
       flavor_dict <- call (c_get_flavor_by_ram flavor_ram flavor_include)
                           (get_flavor_by_ram flavor_ram flavor_include) ;;
       match flavor_dict with
       | None => fail_json (fail_msg "Could not find any matching flavor" None)
       | Some f => ret f
       end) ;;
  nics <- _network_args p ;;
  let a :=
    {| ca_ip_pool := params.floating_ip_pools p;
       ca_ips := params.floating_ips p;
       ca_auto_ip := params.auto_floating_ip p;
       ca_root_volume := params.root_volume p;
       ca_terminate_volume := params.terminate_volume p;
       ca_wait := params.wait p;
       ca_timeout := params.timeout p;
       bk_name := params.name p;
       bk_image := image_id;
       bk_flavor := flavor_id flavor_dict;
       bk_nics := nics;
       bk_meta := params.meta p;
       bk_security_groups := split_comma (params.security_groups p);
       bk_userdata := params.userdata p;
       bk_config_drive := params.config_drive p;
       bk_region_name := keep_truthy (params.region_name p);
       bk_key_name := keep_truthy (params.key_name p);
       bk_availability_zone := keep_truthy (params.availability_zone p) |} in
  server <- call (c_create_server a) (create_server a) ;;
  _exit_hostvars server true.

Fixpoint _delete_floating_ip_list (server : Server) (extra_ips : list string)
  : M W unit :=
  match extra_ips with
  | [] => ret tt
  | ip :: rest =>
      call (c_remove_floating_ip (server_id server) ip)
           (remove_floating_ip (server_id server) ip) ;;;
      _delete_floating_ip_list server rest
  end.

Definition _check_floating_ips (p : params.t) (server : Server)
  : M W (bool * Server) :=
  let changed := false in
  let auto_floating_ip := params.auto_floating_ip p in
  let floating_ips := params.floating_ips p in
  let floating_ip_pools := params.floating_ip_pools p in
  if truthy_list floating_ip_pools || truthy_list floating_ips || auto_floating_ip
  then
    let ips := openstack_find_nova_addresses (addresses server) floating in
    if negb (nonempty ips) then
      server <- call (c_add_ips_to_server server auto_floating_ip floating_ips
                        floating_ip_pools)
                     (add_ips_to_server server auto_floating_ip floating_ips
                        floating_ip_pools) ;;
      ret (true, server)
    else if truthy_list floating_ips then
      let missing_ips :=
        List.filter (fun ip => negb (py_in ip ips)) (default [] floating_ips) in
      cs <- (if nonempty missing_ips then
               server <- call (c_add_ip_list server missing_ips)
                              (add_ip_list server missing_ips) ;;
               ret (true, server)
             else ret (changed, server)) ;;
      let extra_ips :=
        List.filter (fun ip => negb (py_in ip (default [] floating_ips))) ips in
      if nonempty extra_ips then
        _delete_floating_ip_list (snd cs) extra_ips ;;;
        ret (true, snd cs)
      else ret cs
    else ret (changed, server)
  else ret (changed, server).

Definition _get_server_state (p : params.t) : M W bool :=
  let state := params.state p in
  server <- call (c_get_server (params.name p)) (get_server (params.name p)) ;;
  match server with
  | Some s =>
      if state_eqb state present then
        (if negb (py_in (status s) ["ACTIVE"; "SHUTOFF"; "PAUSED"; "SUSPENDED"])
         then fail_json
                (fail_msg ("The instance is available but not Active state: "
                           +:+ status s) None)
         else ret tt) ;;;
        r <- _check_floating_ips p s ;;
        _exit_hostvars (snd r) (fst r)
      else ret tt
  | None => ret tt
  end ;;;
  if (match server with Some _ => true | None => false end)
     && state_eqb state absent
  then ret true
  else if state_eqb state absent
  then exit_json (exit_result_of false "not present")
  else ret true.

Definition main (a : args.t) : M W unit :=
  module <- AnsibleModule a ;;
  (if negb HAS_SHADE
   then fail_json (fail_msg "shade is required for this module" None)
   else ret tt) ;;;
  let state := params.state module in
  let image := params.image module in
  let root_volume := params.root_volume module in
  let flavor := params.flavor module in
  let flavor_ram := params.flavor_ram module in
  (if state_eqb state present then
     (if negb (truthy_str image || truthy_str root_volume) then
        fail_json
          (fail_msg
             "Parameter 'image' or 'root_volume' is required if state == 'present'"
             None)
      else ret tt) ;;;
     (if negb (truthy_str flavor) && negb (truthy_int flavor_ram) then
        fail_json
          (fail_msg
             "Parameter 'flavor' or 'flavor_ram' is required if state == 'present'"
             None)
      else ret tt)
   else ret tt) ;;;
  try_except
    (let cloud_params := pop_userdata module in
     call (c_openstack_cloud cloud_params) (openstack_cloud cloud_params) ;;;
     match state with
     | present => _get_server_state module ;;; _create_server module
     | absent => _get_server_state module ;;; _delete_server module
     end)
    (fun e =>
       match e with
       | OpenStackCloudException m x => Some (fail_json (fail_msg m x))
       | Exception _ => None
       end).

End os_server.

(** ** A reference provider

    Modelled from the spec: the cloud client ([shade]) and the provider
    behind it are external collaborators, known to the module only through
    the calls above.  The reference provider follows the spec's description
    of them: instances are looked up by name; an image reference resolves
    only when exactly one image remains after the exclusion filter; a flavor
    by capacity is the smallest one that fits; a floating address can be
    attached only when the provider owns it and it is free; creation begins
    building and, when asked to wait, ends in an active instance whose
    floating addresses follow the policy. *)
Module provider.

Record FloatingIP := { fip_pool : string; fip_address : string; fip_free : bool }.

Record world := {
  servers : list Server;
  images : list (string * string);
  flavors : list Flavor;
  networks : list Network;
  ports : list Network;
  floating_ip_table : list FloatingIP
}.

Definition with_servers (w : world) (l : list Server) : world :=
  {| servers := l; images := images w; flavors := flavors w;
     networks := networks w; ports := ports w;
     floating_ip_table := floating_ip_table w |}.

Definition set_addresses (s : Server) (a : list (string * list Address)) : Server :=
  {| server_id := server_id s; server_name := server_name s;
     status := status s; addresses := a |}.

Fixpoint contains (sub s : string) : bool :=
  String.prefix sub s ||
  match s with
  | EmptyString => false
  | String _ rest => contains sub rest
  end.

Definition find_server_by_name (n : string) (l : list Server) : option Server :=
  List.find (fun s => String.eqb (server_name s) n) l.

Definition find_server_by_id (i : string) (l : list Server) : option Server :=
  List.find (fun s => String.eqb (server_id s) i) l.

(** A floating address joins the first network of the address map. *)
Definition attach_address (ip : string) (m : list (string * list Address))
  : list (string * list Address) :=
  match m with
  | [] => [("public", [{| addr := ip; ip_type := floating |}])]
  | (n, l) :: rest => (n, l ++ [{| addr := ip; ip_type := floating |}]) :: rest
  end.

Definition detach_address (ip : string) (m : list (string * list Address))
  : list (string * list Address) :=
  map (fun kv =>
         (fst kv,
          List.filter
            (fun i => negb (addr_type_eqb (ip_type i) floating
                            && String.eqb (addr i) ip))
            (snd kv)))
      m.

Definition update_server (i : string) (f : Server -> Server) (l : list Server)
  : list Server :=
  map (fun s => if String.eqb (server_id s) i then f s else s) l.

Definition is_free (ip : string) (t : list FloatingIP) : bool :=
  existsb (fun f => fip_free f && String.eqb (fip_address f) ip) t.

Definition set_free (ip : string) (b : bool) (t : list FloatingIP) : list FloatingIP :=
  map (fun f =>
         if String.eqb (fip_address f) ip
         then {| fip_pool := fip_pool f; fip_address := ip; fip_free := b |}
         else f)
      t.

(** attachFloatingIp: the address must be owned and free, the instance must
    exist. *)
Definition attach_floating_ip (i ip : string) (w : world) : res unit * world :=
  match find_server_by_id i (servers w) with
  | None => (inl (OpenStackCloudException "Error attaching IP: no such instance" None), w)
  | Some _ =>
      if is_free ip (floating_ip_table w) then
        (inr tt,
         {| servers :=
              update_server i
                (fun s => set_addresses s (attach_address ip (addresses s)))
                (servers w);
            images := images w; flavors := flavors w;
            networks := networks w; ports := ports w;
            floating_ip_table := set_free ip false (floating_ip_table w) |})
      else (inl (OpenStackCloudException "Error attaching IP: not available" None), w)
  end.

(** detachFloatingIp, reached through the compute client directly: its
    errors are not the cloud client's exception. *)
Definition detach_floating_ip (i ip : string) (w : world) : res unit * world :=
  match find_server_by_id i (servers w) with
  | None => (inl (Exception "No server with that id"), w)
  | Some _ =>
      (inr tt,
       {| servers :=
            update_server i
              (fun s => set_addresses s (detach_address ip (addresses s)))
              (servers w);
          images := images w; flavors := flavors w;
          networks := networks w; ports := ports w;
          floating_ip_table := set_free ip true (floating_ip_table w) |})
  end.

Fixpoint attach_all (i : string) (ips : list string) (w : world) : res unit * world :=
  match ips with
  | [] => (inr tt, w)
  | ip :: rest =>
      match attach_floating_ip i ip w with
      | (inr _, w') => attach_all i rest w'
      | (inl e, w') => (inl e, w')
      end
  end.

(** The refreshed record of an instance after a change. *)
Definition refreshed (s : Server) (w : world) : Server :=
  default s (find_server_by_id (server_id s) (servers w)).

Definition sim_add_ip_list (s : Server) (ips : list string) (w : world)
  : res Server * world :=
  match attach_all (server_id s) ips w with
  | (inr _, w') => (inr (refreshed s w'), w')
  | (inl e, w') => (inl e, w')
  end.

(** The first free address of the first candidate pool that has one. *)
Fixpoint first_free_of_pools (pools : list string) (t : list FloatingIP)
  : option string :=
  match pools with
  | [] => None
  | pool :: rest =>
      match List.find (fun f => fip_free f && String.eqb (fip_pool f) pool) t with
      | Some f => Some (fip_address f)
      | None => first_free_of_pools rest t
      end
  end.

(** The provider's default allocation path: the first free address. *)
Definition first_free (t : list FloatingIP) : option string :=
  option_map fip_address (List.find fip_free t).

Definition sim_add_ips_to_server (s : Server) (auto_ip : bool)
  (ips ip_pool : option (list string)) (w : world) : res Server * world :=
  if truthy_list ip_pool then
    match first_free_of_pools (default [] ip_pool) (floating_ip_table w) with
    | Some ip => sim_add_ip_list s [ip] w
    | None => (inl (OpenStackCloudException "No floating IP available in the pools" None), w)
    end
  else if truthy_list ips then sim_add_ip_list s (default [] ips) w
  else if auto_ip then
    if nonempty (openstack_find_nova_addresses (addresses s) floating)
    then (inr s, w)
    else match first_free (floating_ip_table w) with
         | Some ip => sim_add_ip_list s [ip] w
         | None => (inl (OpenStackCloudException "Unable to create floating ip" None), w)
         end
  else (inr s, w).

Definition sim_get_server (n : string) (w : world) : res (option Server) * world :=
  (inr (find_server_by_name n (servers w)), w).

(** resolveImage: by name or id, minus the names that contain the exclusion
    text; anything but exactly one remaining image is not found. *)
Definition sim_get_image_id (image exclude : option string) (w : world)
  : res (option string) * world :=
  let keep (im : string * string) :=
    (String.eqb (fst im) (default "" image) || String.eqb (snd im) (default "" image))
    && negb (truthy_str exclude && contains (default "" exclude) (snd im)) in
  (inr match List.filter keep (images w) with
       | [im] => Some (fst im)
       | _ => None
       end, w).

Definition sim_get_flavor (ref : string) (w : world) : res (option Flavor) * world :=
  (inr (List.find
          (fun f => String.eqb (flavor_id f) ref || String.eqb (flavor_name f) ref)
          (flavors w)), w).

Definition smaller (f : Flavor) (best : option Flavor) : option Flavor :=
  match best with
  | None => Some f
  | Some b => if Z.ltb (ram f) (ram b) then Some f else Some b
  end.

(** resolveFlavor by capacity: the smallest RAM at or above the floor among
    the flavors whose name contains the include text. *)
Definition sim_get_flavor_by_ram (min_ram : option Z) (include : option string)
  (w : world) : res (option Flavor) * world :=
  (inr (fold_right smaller None
          (List.filter
             (fun f => Z.leb (default 0%Z min_ram) (ram f)
                       && contains (default "" include) (flavor_name f))
             (flavors w))), w).

Definition sim_lookup (n : string) (l : list Network) : option Network :=
  match List.filter (fun x => String.eqb (network_name x) n) l with
  | [x] => Some x
  | _ => None
  end.

Definition sim_get_network (n : string) (w : world) : res (option Network) * world :=
  (inr (sim_lookup n (networks w)), w).

Definition sim_get_port (n : string) (w : world) : res (option Network) * world :=
  (inr (sim_lookup n (ports w)), w).

(** createServer: the provider begins building; with [wait] the call returns
    once the instance is active and its floating addresses are in place. *)
Definition sim_create_server (a : create_args) (w : world) : res Server * world :=
  let s :=
    {| server_id := "id-" +:+ bk_name a;
       server_name := bk_name a;
       status := if ca_wait a then "ACTIVE" else "BUILD";
       addresses := [("private", [{| addr := "192.168.0.2"; ip_type := fixed |}])] |} in
  let w' := with_servers w (servers w ++ [s]) in
  if ca_wait a
  then sim_add_ips_to_server s (ca_auto_ip a) (ca_ips a) (ca_ip_pool a) w'
  else (inr s, w').

Definition sim_delete_server (n : string) (wait : bool) (timeout : Z) (w : world)
  : res unit * world :=
  (inr tt,
   with_servers w
     (List.filter (fun s => negb (String.eqb (server_name s) n)) (servers w))).

Definition sim_get_hostvars_from_server (s : Server) (w : world)
  : res Hostvars * world :=
  (inr [("id", server_id s); ("name", server_name s); ("status", status s)], w).

#[global] Instance reference_cloud : shade_cloud world := {|
  openstack_cloud := fun _ w => (inr tt, w);
  get_server := sim_get_server;
  get_image_id := sim_get_image_id;
  get_flavor := sim_get_flavor;
  get_flavor_by_ram := sim_get_flavor_by_ram;
  get_network := sim_get_network;
  get_port := sim_get_port;
  create_server := sim_create_server;
  delete_server := sim_delete_server;
  add_ips_to_server := sim_add_ips_to_server;
  add_ip_list := sim_add_ip_list;
  remove_floating_ip := detach_floating_ip;
  get_hostvars_from_server := sim_get_hostvars_from_server
|}.

End provider.

(** * Reading the properties *)

(** ** Validation of the declared state *)

Definition is_some {A : Type} (o : option A) : bool :=
  match o with
  | Some _ => true
  | None => false
  end.

(** The first pair of [mutually_exclusive] of which both keys were supplied. *)
Definition first_conflict (a : args.t) (spec : list (string * string))
  : option (string * string) :=
  List.find (fun xy => py_in (fst xy) (supplied_keys a)
                       && py_in (snd xy) (supplied_keys a)) spec.

(** What [main] decides before it reaches the cloud: the refusal it stops
    with, or the parameters it goes on with. *)
Definition validation (HAS_SHADE : bool) (a : args.t) : failure + params.t :=
  match first_conflict a mutually_exclusive_pairs with
  | Some (x, y) => inl (mutually_exclusive x y)
  | None =>
      match args.name a with
      | None => inl (missing_required "name")
      | Some n =>
          let module := argument_spec n a in
          if negb HAS_SHADE
          then inl (fail_msg "shade is required for this module" None)
          else if state_eqb (params.state module) present
                  && negb (truthy_str (params.image module)
                           || truthy_str (params.root_volume module))
          then inl (fail_msg
                      "Parameter 'image' or 'root_volume' is required if state == 'present'"
                      None)
          else if state_eqb (params.state module) present
                  && (negb (truthy_str (params.flavor module))
                      && negb (truthy_int (params.flavor_ram module)))
          then inl (fail_msg
                      "Parameter 'flavor' or 'flavor_ram' is required if state == 'present'"
                      None)
          else inr module
      end
  end.

(** The [try: ... except shade.OpenStackCloudException] block of [main]. *)
Definition reconcile_block {W : Type} {cloud : shade_cloud W} (module : params.t)
  : M W unit :=
  try_except
    (let cloud_params := pop_userdata module in
     call (c_openstack_cloud cloud_params) (openstack_cloud cloud_params) ;;;
     match params.state module with
     | present => _get_server_state module ;;; _create_server module
     | absent => _get_server_state module ;;; _delete_server module
     end)
    (fun e =>
       match e with
       | OpenStackCloudException m x => Some (fail_json (fail_msg m x))
       | Exception _ => None
       end).

Definition both_set {A B : Type} (x : option A) (y : option B) : Prop :=
  is_some x && is_some y = true.

(** Two fields of one of the five mutually-exclusive pairs are set. *)
Definition exclusive_pair_set (a : args.t) : Prop :=
  both_set (args.auto_floating_ip a) (args.floating_ips a)
  ∨ both_set (args.auto_floating_ip a) (args.floating_ip_pools a)
  ∨ both_set (args.floating_ips a) (args.floating_ip_pools a)
  ∨ both_set (args.flavor a) (args.flavor_ram a)
  ∨ both_set (args.image a) (args.root_volume a).

Definition target_present (a : args.t) : Prop :=
  default present (args.state a) = present.

(** The refusals the spec calls [SpecConflict]. *)
Definition SpecConflict (f : failure) : Prop :=
  match f with
  | mutually_exclusive _ _ => True
  | fail_msg m _ =>
      m = "Parameter 'image' or 'root_volume' is required if state == 'present'"
      ∨ m = "Parameter 'flavor' or 'flavor_ram' is required if state == 'present'"
  | missing_required _ => False
  end.

Definition accepted_statuses : list string :=
  ["ACTIVE"; "SHUTOFF"; "PAUSED"; "SUSPENDED"].

Definition is_create_or_delete (c : Call) : bool :=
  match c with
  | c_create_server _ | c_delete_server _ _ _ => true
  | _ => false
  end.

(** ** The boot request's network arguments *)

(** An entry the loop of [_network_args] recognises: one of the four keys
    holds a non-empty value. *)
Definition recognised (net : dict) : bool :=
  truthy_str (net !! "net-id") || truthy_str (net !! "net-name")
  || truthy_str (net !! "port-id") || truthy_str (net !! "port-name").

(** What a recognised entry becomes in the boot request. *)
Definition emitted (net arg : dict) : Prop :=
  if truthy_str (net !! "net-id") then arg = net
  else if truthy_str (net !! "net-name") then ∃ i, arg = {[ "net-id" := i ]}
  else if truthy_str (net !! "port-id") then arg = net
  else ∃ i, arg = {[ "port-id" := i ]}.

(** ** Floating-address convergence *)

Definition observed (s : Server) : list string :=
  openstack_find_nova_addresses (addresses s) floating.

Definition desired (p : params.t) : list string :=
  default [] (params.floating_ips p).

(** missing = desired − observed and extra = observed − desired, as
    [_check_floating_ips] computes them. *)
Definition missing_ips (p : params.t) (s : Server) : list string :=
  List.filter (fun ip => negb (py_in ip (observed s))) (desired p).

Definition extra_ips (p : params.t) (s : Server) : list string :=
  List.filter (fun ip => negb (py_in ip (desired p))) (observed s).

Definition policy_set (p : params.t) : bool :=
  truthy_list (params.floating_ip_pools p) || truthy_list (params.floating_ips p)
  || params.auto_floating_ip p.

(** The attach call of a convergence step, if it makes one. *)
Definition attach_calls (p : params.t) (s : Server) : list Call :=
  if negb (nonempty (observed s)) then
    [c_add_ips_to_server s (params.auto_floating_ip p) (params.floating_ips p)
       (params.floating_ip_pools p)]
  else if truthy_list (params.floating_ips p) && nonempty (missing_ips p s) then
    [c_add_ip_list s (missing_ips p s)]
  else [].

(** A record on which the policy has nothing left to do. *)
Definition converged (p : params.t) (s : Server) : Prop :=
  policy_set p = true →
  observed s ≠ []
  ∧ (truthy_list (params.floating_ips p) = true →
     missing_ips p s = [] ∧ extra_ips p s = []).

(** The policies the module accepts never carry both a list and pools. *)
Definition one_policy (p : params.t) : Prop :=
  truthy_list (params.floating_ips p) = true →
  truthy_list (params.floating_ip_pools p) = false.

(** ** The reference provider: instances and their addresses *)

Module provider_terms.
Import provider.

Definition named (n : string) (w : world) : option Server :=
  find_server_by_name n (servers w).

Definition attach_one (ip : string) (s : Server) : Server :=
  set_addresses s (attach_address ip (addresses s)).

Definition detach_one (ip : string) (s : Server) : Server :=
  set_addresses s (detach_address ip (addresses s)).

Definition attach_list (ips : list string) (s : Server) : Server :=
  fold_left (fun s ip => attach_one ip s) ips s.

Definition detach_list (ips : list string) (s : Server) : Server :=
  fold_left (fun s ip => detach_one ip s) ips s.

(** A change of the address map only. *)
Definition keeps_identity (f : Server → Server) : Prop :=
  ∀ s, server_id (f s) = server_id s ∧ server_name (f s) = server_name s
       ∧ status (f s) = status s.

Definition fixed_addresses (s : Server) : list string :=
  openstack_find_nova_addresses (addresses s) fixed.

(** What [add_ips_to_server] attaches when it succeeds, by policy. *)
Definition added_by_policy (auto_ip : bool) (ips ip_pool : option (list string))
  (s : Server) (att : list string) : Prop :=
  if truthy_list ip_pool then ∃ ip, att = [ip]
  else if truthy_list ips then att = default [] ips
  else if auto_ip && negb (nonempty (observed s)) then ∃ ip, att = [ip]
  else att = [].

(** What a successful convergence step attached and detached. *)
Definition attached_by (p : params.t) (s : Server) (att : list string) : Prop :=
  if negb (policy_set p) then att = []
  else if negb (nonempty (observed s)) then
    added_by_policy (params.auto_floating_ip p) (params.floating_ips p)
      (params.floating_ip_pools p) s att
  else if truthy_list (params.floating_ips p) then att = missing_ips p s
  else att = [].

Definition detached_by (p : params.t) (s : Server) : list string :=
  if policy_set p && nonempty (observed s) && truthy_list (params.floating_ips p)
  then extra_ips p s
  else [].

End provider_terms.

(** ** Example inputs *)

Module examples.
Import provider.

Definition task (image flavor : option string) (auto_ip : option bool)
  (ips pools : option (list string)) (state : option state_choice)
  (wait : option bool) : args.t :=
  {| args.name := Some "vm1"; args.image := image; args.image_exclude := None;
     args.flavor := flavor; args.flavor_ram := None; args.flavor_include := None;
     args.key_name := None; args.security_groups := None; args.nics := None;
     args.meta := None; args.userdata := None; args.config_drive := None;
     args.auto_floating_ip := auto_ip; args.floating_ips := ips;
     args.floating_ip_pools := pools; args.root_volume := None;
     args.terminate_volume := None; args.state := state; args.wait := wait;
     args.timeout := None; args.region_name := None;
     args.availability_zone := None |}.

Definition fl (a : string) : Address := {| addr := a; ip_type := floating |}.
Definition fx (a : string) : Address := {| addr := a; ip_type := fixed |}.

Definition vm1 (st : string) (l : list Address) : Server :=
  {| server_id := "s-1"; server_name := "vm1"; status := st;
     addresses := [("private", l)] |}.

Definition cloud_with (l : list Server) : world :=
  {| servers := l;
     images := [("img-1", "ubuntu"); ("img-2", "ubuntu (deprecated)")];
     flavors := [{| flavor_id := "1"; flavor_name := "m1.small"; ram := 2048 |}];
     networks := [{| network_id := "net-1"; network_name := "private" |}];
     ports := [];
     floating_ip_table :=
       [{| fip_pool := "ext"; fip_address := "10.0.0.1"; fip_free := false |};
        {| fip_pool := "ext"; fip_address := "10.0.0.2"; fip_free := false |};
        {| fip_pool := "ext"; fip_address := "10.0.0.3"; fip_free := true |}] |}.

(** observed = [10.0.0.1, 10.0.0.2], desired = [10.0.0.2, 10.0.0.3]. *)
Definition observed_two : Server :=
  vm1 "ACTIVE" [fx "192.168.0.5"; fl "10.0.0.1"; fl "10.0.0.2"].

Definition desired_two : args.t :=
  task (Some "ubuntu") (Some "m1.small") None
    (Some ["10.0.0.2"; "10.0.0.3"]) None None None.

Definition auto_task : args.t :=
  task (Some "ubuntu") (Some "m1.small") None None None None None.

Definition no_wait_task : args.t :=
  task (Some "ubuntu") (Some "m1.small") None None None None (Some false).

Definition absent_task : args.t :=
  task None None None None None (Some absent) None.

Definition unknown_image_task : args.t :=
  task (Some "no-such-image") (Some "m1.small") None None None None None.

Definition nic (k v : string) : dict := {[ k := v ]}.

Definition with_nics (l : list dict) : params.t :=
  argument_spec "vm1"
    {| args.name := Some "vm1"; args.image := Some "ubuntu";
       args.image_exclude := None; args.flavor := Some "m1.small";
       args.flavor_ram := None; args.flavor_include := None;
       args.key_name := None; args.security_groups := None; args.nics := Some l;
       args.meta := None; args.userdata := None; args.config_drive := None;
       args.auto_floating_ip := None; args.floating_ips := None;
       args.floating_ip_pools := None; args.root_volume := None;
       args.terminate_volume := None; args.state := None; args.wait := None;
       args.timeout := None; args.region_name := None;
       args.availability_zone := None |}.

End examples.

(** ** The claims as first stated, where the module departs from them *)

Definition is_get_server (c : Call) : bool :=
  match c with
  | c_get_server _ => true
  | _ => false
  end.

Definition is_create_with_no_image (c : Call) : bool :=
  match c with
  | c_create_server a =>
      match bk_image a, ca_root_volume a with
      | None, None => true
      | _, _ => false
      end
  | _ => false
  end.

(** A bounded wait for a terminal status, read on the calls: having found
    the instance in a transitional status, a run with a positive timeout
    looks at the instance at least once more. *)
Definition waits_for_terminal_status : Prop :=
  ∀ (a : args.t) (p : params.t) (w : provider.world) (s : Server),
    validation true a = inr p →
    params.state p = present →
    provider.find_server_by_name (params.name p) (provider.servers w) = Some s →
    py_in (status s) (accepted_statuses ++ ["ERROR"]) = false →
    (0 < params.timeout p)%Z →
    (2 ≤ List.length (List.filter is_get_server (snd (snd (run (main true a) w)))))%nat.

(** Idempotence as stated: after a successful present-state run, the same
    run again succeeds with changed=false. *)
Definition second_run_unchanged : Prop :=
  ∀ (a : args.t) (w w1 : provider.world) r1 tr1,
    target_present a →
    run (main true a) w = (ExitJson r1, (w1, tr1)) →
    ∃ r2 st2, run (main true a) w1 = (ExitJson r2, st2) ∧ changed_of r2 = false.

(** ** Calls by kind, and what a computation may issue *)

Definition is_network_lookup (c : Call) : bool :=
  match c with
  | c_get_network _ | c_get_port _ => true
  | _ => false
  end.

Definition is_removal (c : Call) : bool :=
  match c with
  | c_remove_floating_ip _ _ => true
  | _ => false
  end.

Definition is_floating_call (c : Call) : bool :=
  match c with
  | c_add_ips_to_server _ _ _ _ | c_add_ip_list _ _ | c_remove_floating_ip _ _ => true
  | _ => false
  end.

Definition is_delete (c : Call) : bool :=
  match c with
  | c_delete_server _ _ _ => true
  | _ => false
  end.

(** The calls of a run that removes an instance. *)
Definition absent_calls (c : Call) : bool :=
  match c with
  | c_openstack_cloud _ | c_get_server _ | c_delete_server _ _ _ => true
  | _ => false
  end.

(** The calls of a run that finds its instance. *)
Definition convergence_calls (c : Call) : bool :=
  match c with
  | c_openstack_cloud _ | c_get_server _ | c_get_hostvars_from_server _ => true
  | _ => is_floating_call c
  end.

(** The calls [_create_server] makes. *)
Definition creation_calls (c : Call) : bool :=
  match c with
  | c_get_image_id _ _ | c_get_flavor _ | c_get_flavor_by_ram _ _
  | c_create_server _ | c_get_hostvars_from_server _ => true
  | _ => is_network_lookup c
  end.

(** Neither an image lookup nor a boot that names an image. *)
Definition image_free (c : Call) : bool :=
  match c with
  | c_get_image_id _ _ => false
  | c_create_server a => negb (is_some (bk_image a))
  | _ => true
  end.

(** Every call a computation adds to the trace is of kind [P]; the calls
    made before are kept. *)
Definition issues_only {W A : Type} (P : Call → bool) (m : M W A) : Prop :=
  ∀ w tr out w' tr',
    m (w, tr) = (out, (w', tr')) →
    ∃ new, tr' = tr ++ new ∧ Forall (fun c => P c = true) new.

(** A [nics] entry that names its network or its port by id. *)
Definition by_id (net : dict) : bool :=
  truthy_str (net !! "net-id")
  || negb (truthy_str (net !! "net-name")) && truthy_str (net !! "port-id").

Fixpoint has_comma (s : string) : bool :=
  match s with
  | EmptyString => false
  | String c rest => Ascii.eqb c ","%char || has_comma rest
  end.

(** The outcomes with which the module reports: [exit_json], [fail_json],
    or an exception that is not the cloud client's. *)
Definition reported {A : Type} (o : outcome A) : Prop :=
  match o with
  | Return _ => False
  | Raised (OpenStackCloudException _ _) => False
  | _ => True
  end.

(** ** A provider that can refuse

    The reference provider behind a connection that can be refused and a
    deletion that can raise, for the error paths of the module. *)
Module outage.

Record world := {
  base : provider.world;
  refuse_connect : option exn;
  refuse_delete : option exn
}.

Definition lift {A : Type} (op : provider.world -> res A * provider.world)
  (w : world) : res A * world :=
  let '(r, b) := op (base w) in
  (r, {| base := b; refuse_connect := refuse_connect w;
         refuse_delete := refuse_delete w |}).

#[global] Instance refusing_cloud : shade_cloud world := {|
  openstack_cloud := fun _ w =>
    match refuse_connect w with
    | Some e => (inl e, w)
    | None => (inr tt, w)
    end;
  get_server := fun n => lift (provider.sim_get_server n);
  get_image_id := fun i x => lift (provider.sim_get_image_id i x);
  get_flavor := fun f => lift (provider.sim_get_flavor f);
  get_flavor_by_ram := fun r i => lift (provider.sim_get_flavor_by_ram r i);
  get_network := fun n => lift (provider.sim_get_network n);
  get_port := fun n => lift (provider.sim_get_port n);
  create_server := fun a => lift (provider.sim_create_server a);
  delete_server := fun n wt t w =>
    match refuse_delete w with
    | Some e => (inl e, w)
    | None => lift (provider.sim_delete_server n wt t) w
    end;
  add_ips_to_server := fun s a i p => lift (provider.sim_add_ips_to_server s a i p);
  add_ip_list := fun s l => lift (provider.sim_add_ip_list s l);
  remove_floating_ip := fun i a => lift (provider.detach_floating_ip i a);
  get_hostvars_from_server := fun s => lift (provider.sim_get_hostvars_from_server s)
|}.

End outage.

Module more_examples.
Import provider examples.

Definition volume_task : args.t :=
  {| args.name := Some "vm1"; args.image := None; args.image_exclude := None;
     args.flavor := Some "m1.small"; args.flavor_ram := None;
     args.flavor_include := None; args.key_name := None;
     args.security_groups := Some "web,db"; args.nics := None;
     args.meta := None; args.userdata := Some "#!/bin/sh"; args.config_drive := None;
     args.auto_floating_ip := Some false; args.floating_ips := None;
     args.floating_ip_pools := None; args.root_volume := Some "vol-1";
     args.terminate_volume := None; args.state := None; args.wait := None;
     args.timeout := None; args.region_name := None;
     args.availability_zone := None |}.

Definition unknown_flavor_task : args.t :=
  task (Some "ubuntu") (Some "m9.huge") None None None None None.

Definition shrink_task : args.t :=
  task (Some "ubuntu") (Some "m1.small") None (Some ["10.0.0.2"]) None None None.

Definition refused (connect delete : option exn) (l : list Server) : outage.world :=
  {| outage.base := cloud_with l; outage.refuse_connect := connect;
     outage.refuse_delete := delete |}.

End more_examples.

(** The arguments [_create_server] hands to [cloud.create_server], given
    the image id, the flavor and the network arguments it resolved. *)
Definition boot_request (p : params.t) (image_id : option string)
  (flavor_dict : Flavor) (nics : list dict) : create_args :=
  {| ca_ip_pool := params.floating_ip_pools p;
     ca_ips := params.floating_ips p;
     ca_auto_ip := params.auto_floating_ip p;
     ca_root_volume := params.root_volume p;
     ca_terminate_volume := params.terminate_volume p;
     ca_wait := params.wait p;
     ca_timeout := params.timeout p;
     bk_name := params.name p;
     bk_image := image_id;
     bk_flavor := flavor_id flavor_dict;
     bk_nics := nics;
     bk_meta := params.meta p;
     bk_security_groups := split_comma (params.security_groups p);
     bk_userdata := params.userdata p;
     bk_config_drive := params.config_drive p;
     bk_region_name := keep_truthy (params.region_name p);
     bk_key_name := keep_truthy (params.key_name p);
     bk_availability_zone := keep_truthy (params.availability_zone p) |}.

(** The flavor lookup [_create_server] makes: by reference when [flavor] is
    given, by capacity otherwise. *)
Definition flavor_call (p : params.t) : Call :=
  if truthy_str (params.flavor p)
  then c_get_flavor (default "" (params.flavor p))
  else c_get_flavor_by_ram (params.flavor_ram p) (params.flavor_include p).

(** * Properties *)

(** ** The boot request's network arguments *)

Section network_args_facts.

Context {W : Type} {cloud : shade_cloud W}.

Lemma keyless_not_recognised (net : dict) :
  net !! "net-id" = None → net !! "net-name" = None →
  net !! "port-id" = None → net !! "port-name" = None →
  recognised net = false.
Proof.
  intros H1 H2 H3 H4. unfold recognised. rewrite H1, H2, H3, H4. reflexivity.
Qed.

Lemma _network_args_loop_skip (net : dict) rest args (st : W * list Call) :
  recognised net = false →
  _network_args_loop (net :: rest) args st = _network_args_loop rest args st.
Proof.
  unfold recognised. intros H.
  repeat (apply orb_false_elim in H; destruct H as [H ?]).
  simpl. rewrite H.
  repeat match goal with E : truthy_str _ = false |- _ => rewrite E; clear E end.
  reflexivity.
Qed.

Lemma _network_args_loop_app l1 l2 args (st : W * list Call) :
  _network_args_loop (l1 ++ l2) args st
  = bind (_network_args_loop l1 args) (fun acc => _network_args_loop l2 acc) st.
Proof.
  revert args st. induction l1 as [|net l1 IH]; intros args st.
  - reflexivity.
  - simpl. unfold bind, call in *.
    repeat match goal with
           | |- context [if ?b then _ else _] => destruct b
           end; try apply IH.
    + destruct (get_network _ st.1) as [[e|[n|]] w']; simpl; try reflexivity.
      apply IH.
    + destruct (get_port _ st.1) as [[e|[n|]] w']; simpl; try reflexivity.
      apply IH.
Qed.

Lemma _network_args_loop_order nics acc (st st' : W * list Call) args :
  _network_args_loop nics acc st = (Return args, st') →
  ∃ out, args = acc ++ out ∧ Forall2 emitted (List.filter recognised nics) out.
Proof.
  revert acc st. induction nics as [|net nics IH]; intros acc st H.
  - simpl in H. inversion H; subst. exists []. rewrite app_nil_r. split; constructor.
  - simpl in H. cbn [List.filter].
    destruct (truthy_str (net !! "net-id")) eqn:E1.
    { replace (recognised net) with true by (unfold recognised; now rewrite E1).
      apply IH in H as (out & -> & HF). exists (net :: out).
      rewrite <- app_assoc. split; [reflexivity|].
      constructor; [|exact HF]. unfold emitted. now rewrite E1. }
    destruct (truthy_str (net !! "net-name")) eqn:E2.
    { replace (recognised net) with true by (unfold recognised; now rewrite E1, E2).
      unfold bind, call in H.
      destruct (get_network _ st.1) as [[e|[n|]] w']; simpl in H; try discriminate.
      apply IH in H as (out & -> & HF). eexists (_ :: out).
      rewrite <- app_assoc. split; [reflexivity|].
      constructor; [|exact HF]. unfold emitted. rewrite E1, E2. eauto. }
    destruct (truthy_str (net !! "port-id")) eqn:E3.
    { replace (recognised net) with true by (unfold recognised; now rewrite E1, E2, E3).
      apply IH in H as (out & -> & HF). exists (net :: out).
      rewrite <- app_assoc. split; [reflexivity|].
      constructor; [|exact HF]. unfold emitted. now rewrite E1, E2, E3. }
    destruct (truthy_str (net !! "port-name")) eqn:E4.
    { replace (recognised net) with true
        by (unfold recognised; now rewrite E1, E2, E3, E4).
      unfold bind, call in H.
      destruct (get_port _ st.1) as [[e|[n|]] w']; simpl in H; try discriminate.
      apply IH in H as (out & -> & HF). eexists (_ :: out).
      rewrite <- app_assoc. split; [reflexivity|].
      constructor; [|exact HF]. unfold emitted. rewrite E1, E2, E3. eauto. }
    replace (recognised net) with false
      by (unfold recognised; now rewrite E1, E2, E3, E4).
    apply IH in H. exact H.
Qed.

Lemma _network_args_loop_no_exit nics acc (st st' : W * list Call) r :
  _network_args_loop nics acc st ≠ (ExitJson r, st').
Proof.
  revert acc st. induction nics as [|net nics IH]; intros acc st H; cbn in H.
  - discriminate.
  - repeat match type of H with
           | context [if ?b then _ else _] => destruct b
           end; try (eapply IH; eassumption).
    + unfold bind, call in H.
      destruct (get_network _ st.1) as [[e|[n|]] w']; try discriminate.
      eapply IH; eassumption.
    + unfold bind, call in H.
      destruct (get_port _ st.1) as [[e|[n|]] w']; try discriminate.
      eapply IH; eassumption.
Qed.

End network_args_facts.

(** ** Validation of the declared state *)

Lemma py_in_app x l1 l2 : py_in x (l1 ++ l2) = py_in x l1 || py_in x l2.
Proof. apply existsb_app. Qed.

Lemma py_in_supplied {A : Type} k k' (o : option A) :
  py_in k (supplied k' o) = String.eqb k k' && is_some o.
Proof.
  destruct o; simpl; [|now rewrite andb_false_r].
  now rewrite orb_false_r, andb_true_r.
Qed.

Ltac supplied_key :=
  intros; unfold supplied_keys;
  rewrite ?py_in_app, ?py_in_supplied; cbn;
  rewrite ?orb_false_r; reflexivity.

Lemma supplied_auto_floating_ip a :
  py_in "auto_floating_ip" (supplied_keys a) = is_some (args.auto_floating_ip a).
Proof. supplied_key. Qed.

Lemma supplied_floating_ips a :
  py_in "floating_ips" (supplied_keys a) = is_some (args.floating_ips a).
Proof. supplied_key. Qed.

Lemma supplied_floating_ip_pools a :
  py_in "floating_ip_pools" (supplied_keys a) = is_some (args.floating_ip_pools a).
Proof. supplied_key. Qed.

Lemma supplied_flavor a :
  py_in "flavor" (supplied_keys a) = is_some (args.flavor a).
Proof. supplied_key. Qed.

Lemma supplied_flavor_ram a :
  py_in "flavor_ram" (supplied_keys a) = is_some (args.flavor_ram a).
Proof. supplied_key. Qed.

Lemma supplied_image a :
  py_in "image" (supplied_keys a) = is_some (args.image a).
Proof. supplied_key. Qed.

Lemma supplied_root_volume a :
  py_in "root_volume" (supplied_keys a) = is_some (args.root_volume a).
Proof. supplied_key. Qed.

Section validation_facts.

Context {W : Type} {cloud : shade_cloud W}.

Lemma _check_mutually_exclusive_spec a spec (st : W * list Call) :
  _check_mutually_exclusive a spec st
  = match first_conflict a spec with
    | Some (x, y) => (FailJson (mutually_exclusive x y), st)
    | None => (Return tt, st)
    end.
Proof.
  induction spec as [|[x y] spec IH]; simpl; [reflexivity|].
  unfold first_conflict in *. simpl.
  destruct (py_in x (supplied_keys a) && py_in y (supplied_keys a)); auto.
Qed.

Lemma main_validation HAS_SHADE a (st : W * list Call) :
  main HAS_SHADE a st
  = match validation HAS_SHADE a with
    | inl f => (FailJson f, st)
    | inr module => reconcile_block module st
    end.
Proof.
  unfold main, validation, AnsibleModule, bind at 1 2.
  rewrite _check_mutually_exclusive_spec.
  destruct (first_conflict a mutually_exclusive_pairs) as [[x y]|]; [reflexivity|].
  destruct (args.name a) as [n|]; [|reflexivity].
  unfold ret at 1. unfold bind at 1.
  destruct HAS_SHADE; simpl; [|reflexivity].
  unfold bind at 1.
  destruct (state_eqb _ present); simpl; [|reflexivity].
  unfold bind at 1.
  destruct (truthy_str (args.image a) || truthy_str (args.root_volume a));
    simpl; [|reflexivity].
  destruct (negb (truthy_str (args.flavor a)) && negb (truthy_int (args.flavor_ram a)));
    simpl; reflexivity.
Qed.

End validation_facts.

Section validation_claims.

Context {W : Type} {cloud : shade_cloud W}.

Lemma exclusive_pair_conflict a :
  exclusive_pair_set a →
  ∃ x y, first_conflict a mutually_exclusive_pairs = Some (x, y).
Proof.
  unfold exclusive_pair_set, both_set, first_conflict, mutually_exclusive_pairs.
  cbn [List.find fst snd].
  rewrite supplied_auto_floating_ip, supplied_floating_ips,
    supplied_floating_ip_pools, supplied_flavor, supplied_flavor_ram,
    supplied_image, supplied_root_volume.
  destruct (is_some (args.auto_floating_ip a)), (is_some (args.floating_ips a)),
    (is_some (args.floating_ip_pools a)), (is_some (args.flavor a)),
    (is_some (args.flavor_ram a)), (is_some (args.image a)),
    (is_some (args.root_volume a)); cbn; intros H; eauto;
    repeat destruct H as [H|H]; discriminate.
Qed.

Lemma first_conflict_listed a x y :
  first_conflict a mutually_exclusive_pairs = Some (x, y) →
  In (x, y) mutually_exclusive_pairs.
Proof. intros H. apply find_some in H. tauto. Qed.

(** C1: a spec in which two fields of a mutually-exclusive pair are set is
    refused by [main] with the argument layer's mutual-exclusion failure, and
    a present-state spec with neither image nor root volume, or with neither
    flavor nor flavor-by-capacity, is refused with a [SpecConflict] failure;
    in both cases the provider is unchanged and no call to the cloud client
    has been made. *)
Theorem spec_conflict_before_any_call :
  (∀ HAS_SHADE a (w : W),
     exclusive_pair_set a →
     ∃ x y, In (x, y) mutually_exclusive_pairs
            ∧ run (main HAS_SHADE a) w = (FailJson (mutually_exclusive x y), (w, [])))
  ∧ (∀ a n (w : W),
       args.name a = Some n → target_present a →
       (truthy_str (args.image a) = false ∧ truthy_str (args.root_volume a) = false)
       ∨ (truthy_str (args.flavor a) = false ∧ truthy_int (args.flavor_ram a) = false) →
       ∃ f, run (main true a) w = (FailJson f, (w, [])) ∧ SpecConflict f).
Proof.
  split.
  - intros HAS a w H. apply exclusive_pair_conflict in H as (x & y & H).
    exists x, y. split; [eapply first_conflict_listed; eauto|].
    unfold run. rewrite main_validation. unfold validation. now rewrite H.
  - intros a n w Hn Hp H. unfold run. rewrite main_validation.
    unfold validation.
    destruct (first_conflict a mutually_exclusive_pairs) as [[x y]|].
    { eexists. split; [reflexivity|exact I]. }
    rewrite Hn. cbn [negb argument_spec params.state params.image
      params.root_volume params.flavor params.flavor_ram].
    unfold target_present in Hp. rewrite Hp. cbn [state_eqb andb].
    destruct H as [[-> ->]|[-> ->]]; cbn.
    + eexists. split; [reflexivity|]. cbn. auto.
    + destruct (truthy_str (args.image a) || truthy_str (args.root_volume a));
        cbn; eexists; (split; [reflexivity|]); cbn; auto.
Qed.

Lemma reconcile_not_active (p : params.t) (w w0 w1 : W) tr s :
  params.state p = present →
  openstack_cloud (pop_userdata p) w = (inr tt, w0) →
  get_server (params.name p) w0 = (inr (Some s), w1) →
  py_in (status s) accepted_statuses = false →
  reconcile_block p (w, tr)
  = (FailJson (fail_msg ("The instance is available but not Active state: "
                         +:+ status s) None),
     (w1, tr ++ [c_openstack_cloud (pop_userdata p); c_get_server (params.name p)])).
Proof.
  intros Hs Hc Hg Hst.
  unfold reconcile_block, try_except, bind, call. cbn [fst snd].
  rewrite Hc, Hs. unfold _get_server_state, bind, call. cbn [fst snd].
  rewrite Hg, Hs. cbn [state_eqb].
  unfold accepted_statuses in Hst. rewrite Hst. cbn.
  now rewrite <- app_assoc.
Qed.

Lemma reconcile_absent_missing (p : params.t) (w w0 w1 : W) tr :
  params.state p = absent →
  openstack_cloud (pop_userdata p) w = (inr tt, w0) →
  get_server (params.name p) w0 = (inr None, w1) →
  reconcile_block p (w, tr)
  = (ExitJson (exit_result_of false "not present"),
     (w1, tr ++ [c_openstack_cloud (pop_userdata p); c_get_server (params.name p)])).
Proof.
  intros Hs Hc Hg.
  unfold reconcile_block, try_except, bind, call. cbn [fst snd].
  rewrite Hc, Hs. unfold _get_server_state, bind, call. cbn [fst snd].
  rewrite Hg, Hs. cbn.
  now rewrite <- app_assoc.
Qed.

(** C3: with target state present, an instance observed in ERROR status
    makes [main] fail with the not-active failure naming ERROR, the calls
    made being the connection and the one lookup: no create, no delete. *)
Theorem error_state_not_remediated (a : args.t) (p : params.t) (w w0 w1 : W) s :
  validation true a = inr p →
  params.state p = present →
  openstack_cloud (pop_userdata p) w = (inr tt, w0) →
  get_server (params.name p) w0 = (inr (Some s), w1) →
  status s = "ERROR" →
  ∃ tr,
    run (main true a) w
    = (FailJson (fail_msg "The instance is available but not Active state: ERROR" None),
       (w1, tr))
    ∧ tr = [c_openstack_cloud (pop_userdata p); c_get_server (params.name p)]
    ∧ List.filter is_create_or_delete tr = [].
Proof.
  intros Hv Hs Hc Hg He. eexists. split; [|split; reflexivity].
  unfold run. rewrite main_validation, Hv.
  erewrite reconcile_not_active; eauto; rewrite He; reflexivity.
Qed.

(** C6: with target state absent and no instance of that name observed,
    [main] exits with changed=false and result "not present"; it neither
    fails nor issues a delete. *)
Theorem delete_of_absent_instance_is_unchanged
  (a : args.t) (p : params.t) (w w0 w1 : W) :
  validation true a = inr p →
  params.state p = absent →
  openstack_cloud (pop_userdata p) w = (inr tt, w0) →
  get_server (params.name p) w0 = (inr None, w1) →
  ∃ r tr,
    run (main true a) w = (ExitJson r, (w1, tr))
    ∧ changed_of r = false
    ∧ r = exit_result_of false "not present"
    ∧ List.filter is_create_or_delete tr = [].
Proof.
  intros Hv Hs Hc Hg. do 2 eexists. split; [|split; [|split]].
  - unfold run. rewrite main_validation, Hv.
    erewrite reconcile_absent_missing; eauto.
  - reflexivity.
  - reflexivity.
  - reflexivity.
Qed.

End validation_claims.

(** ** Floating-address convergence: the calls issued *)

Ltac close_calls :=
  cbn; rewrite ?app_nil_r, <- ?app_assoc; repeat split; auto; try discriminate;
  repeat match goal with
         | E : Return _ = Return _ |- _ => inversion E; subst; clear E
         end;
  eauto.

Section floating_calls.

Context {W : Type} {cloud : shade_cloud W}.

Lemma _check_floating_ips_no_policy p s (st : W * list Call) :
  policy_set p = false →
  _check_floating_ips p s st = (Return (false, s), st).
Proof.
  unfold policy_set, _check_floating_ips. intros ->. reflexivity.
Qed.

Lemma _check_floating_ips_none_observed p s (w : W) tr :
  policy_set p = true → observed s = [] →
  _check_floating_ips p s (w, tr)
  = (match fst (add_ips_to_server s (params.auto_floating_ip p)
                  (params.floating_ips p) (params.floating_ip_pools p) w) with
     | inr s' => Return (true, s')
     | inl e => Raised e
     end,
     (snd (add_ips_to_server s (params.auto_floating_ip p)
             (params.floating_ips p) (params.floating_ip_pools p) w),
      tr ++ [c_add_ips_to_server s (params.auto_floating_ip p)
               (params.floating_ips p) (params.floating_ip_pools p)])).
Proof.
  unfold policy_set, _check_floating_ips, observed. intros -> ->.
  unfold bind, call, ret. cbn [fst snd nonempty negb].
  destruct (add_ips_to_server _ _ _ _ w) as [[e|s'] w']; reflexivity.
Qed.

Lemma _check_floating_ips_some_no_list p s (st : W * list Call) :
  observed s ≠ [] → truthy_list (params.floating_ips p) = false →
  _check_floating_ips p s st = (Return (false, s), st).
Proof.
  unfold _check_floating_ips, observed. intros Ho ->.
  destruct (openstack_find_nova_addresses (addresses s) floating); [done|].
  cbn. destruct (_ || _); reflexivity.
Qed.

Lemma _delete_floating_ip_list_calls s extra (w : W) tr out w' tr' :
  _delete_floating_ip_list s extra (w, tr) = (out, (w', tr')) →
  ∃ gone rest,
    extra = gone ++ rest
    ∧ tr' = tr ++ map (c_remove_floating_ip (server_id s)) gone
    ∧ (∀ u, out = Return u → rest = []).
Proof.
  revert w tr. induction extra as [|ip extra IH]; intros w tr H.
  - cbn in H. inversion H; subst. exists [], []. cbn. rewrite app_nil_r.
    repeat split; auto.
  - cbn in H. unfold bind, call in H. cbn [fst snd] in H.
    destruct (remove_floating_ip (server_id s) ip w) as [[e|[]] w1].
    + inversion H; subst. exists [ip], extra. repeat split; auto. discriminate.
    + apply IH in H as (gone & rest & -> & -> & Hr).
      exists (ip :: gone), rest. rewrite <- app_assoc. repeat split; auto.
Qed.

(** The calls of a convergence step under a policy with an explicit list:
    first the attach call, then the removals, which follow the extra
    addresses in order and are complete when the step returns. *)
Lemma _check_floating_ips_calls p s (w : W) tr out w' tr' :
  truthy_list (params.floating_ips p) = true →
  _check_floating_ips p s (w, tr) = (out, (w', tr')) →
  ∃ target gone rest,
    extra_ips p s = gone ++ rest
    ∧ tr' = tr ++ attach_calls p s ++ map (c_remove_floating_ip target) gone
    ∧ (∀ r, out = Return r →
         rest = []
         ∧ fst r = nonempty (attach_calls p s) || nonempty (extra_ips p s)).
Proof.
  intros Hl H. unfold _check_floating_ips in H. rewrite Hl in H.
  rewrite orb_true_r in H. cbn [orb] in H.
  unfold attach_calls, extra_ips, missing_ips, observed, desired in *.
  rewrite Hl. cbn [andb].
  set (ips := openstack_find_nova_addresses (addresses s) floating) in *.
  destruct ips as [|i0 ips'] eqn:Hips.
  - cbn [nonempty negb] in *. unfold bind, call, ret in H. cbn [fst snd] in H.
    destruct (add_ips_to_server _ _ _ _ w) as [[e|s'] w1];
      inversion H; subst; exists "", [], []; close_calls.
  - cbn [nonempty negb] in *.
    set (missing := List.filter _ (default [] (params.floating_ips p))) in *.
    set (extra := List.filter _ (i0 :: ips')) in *.
    unfold bind at 1 in H.
    destruct (nonempty missing) eqn:Hm.
    + unfold bind, call, ret in H. cbn [fst snd] in H.
      destruct (add_ip_list s missing w) as [[e|s1] w1]; cbn [snd] in H.
      * inversion H; subst. exists "", [], extra. close_calls.
      * destruct (nonempty extra) eqn:He.
        -- destruct (_delete_floating_ip_list s1 extra _) as [o [w2 tr2]] eqn:Hd.
           apply _delete_floating_ip_list_calls in Hd as (gone & rest & Hx & -> & Hr).
           exists (server_id s1), gone, rest.
           destruct o; inversion H; subst; close_calls.
        -- inversion H; subst. destruct extra; [|discriminate].
           exists "", [], []. close_calls.
    + unfold ret in H at 1. cbn [snd] in H.
      destruct (nonempty extra) eqn:He.
      * unfold bind, ret in H.
        destruct (_delete_floating_ip_list s extra _) as [o [w2 tr2]] eqn:Hd.
        apply _delete_floating_ip_list_calls in Hd as (gone & rest & Hx & -> & Hr).
        exists (server_id s), gone, rest.
        destruct o; inversion H; subst; close_calls.
      * unfold ret in H. inversion H; subst. destruct extra; [|discriminate].
        exists "", [], []. close_calls.
Qed.

Lemma _delete_floating_ip_list_outcome s extra (st st' : W * list Call) out :
  _delete_floating_ip_list s extra st = (out, st') →
  (∃ r, out = Return r) ∨ (∃ e, out = Raised e).
Proof.
  revert st. induction extra as [|ip extra IH]; intros st H; cbn in H.
  - inversion H. eauto.
  - unfold bind, call in H.
    destruct (remove_floating_ip (server_id s) ip st.1) as [[e|[]] w1].
    + inversion H. eauto.
    + eapply IH; eauto.
Qed.

(** A convergence step returns or raises; it never ends the module itself. *)
Lemma _check_floating_ips_outcome p s (st st' : W * list Call) out :
  _check_floating_ips p s st = (out, st') →
  (∃ r, out = Return r) ∨ (∃ e, out = Raised e).
Proof.
  unfold _check_floating_ips. intros H.
  destruct (_ || _ || _); [|inversion H; eauto].
  destruct (negb _).
  { unfold bind, call, ret in H.
    destruct (add_ips_to_server _ _ _ _ st.1) as [[e|s'] w1]; inversion H; eauto. }
  destruct (truthy_list _); [|inversion H; eauto].
  unfold bind at 1 in H.
  destruct (nonempty (List.filter _ (default [] _))).
  - unfold bind at 1, call, ret at 1 in H.
    destruct (add_ip_list _ _ st.1) as [[e|s'] w1]; [inversion H; eauto|].
    destruct (nonempty _); [|inversion H; eauto].
    unfold bind, ret in H.
    destruct (_delete_floating_ip_list _ _ _) as [o st2] eqn:Hd.
    apply _delete_floating_ip_list_outcome in Hd as [[r ->]|[e ->]];
      inversion H; eauto.
  - unfold ret at 1 in H.
    destruct (nonempty _); [|inversion H; eauto].
    unfold bind, ret in H.
    destruct (_delete_floating_ip_list _ _ _) as [o st2] eqn:Hd.
    apply _delete_floating_ip_list_outcome in Hd as [[r ->]|[e ->]];
      inversion H; eauto.
Qed.

End floating_calls.

(** ** The reference provider: what attaching and detaching do *)

Module provider_facts.
Import provider provider_terms.

Lemma py_in_In x l : py_in x l = true ↔ In x l.
Proof.
  unfold py_in. rewrite existsb_exists. split.
  - intros (y & Hy & E). apply String.eqb_eq in E. now subst.
  - intros H. exists x. split; [exact H|apply String.eqb_refl].
Qed.

Lemma py_in_not_In x l : py_in x l = false ↔ ¬ In x l.
Proof.
  rewrite <- py_in_In. destruct (py_in x l); split; intros; congruence.
Qed.

Lemma keeps_identity_attach_one ip : keeps_identity (attach_one ip).
Proof. intros s. repeat split. Qed.

Lemma keeps_identity_detach_one ip : keeps_identity (detach_one ip).
Proof. intros s. repeat split. Qed.

Lemma keeps_identity_attach_list ips : keeps_identity (attach_list ips).
Proof.
  unfold attach_list. induction ips as [|ip ips IH]; intros s; cbn.
  - repeat split.
  - destruct (IH (attach_one ip s)) as (-> & -> & ->). repeat split.
Qed.

Lemma keeps_identity_detach_list ips : keeps_identity (detach_list ips).
Proof.
  unfold detach_list. induction ips as [|ip ips IH]; intros s; cbn.
  - repeat split.
  - destruct (IH (detach_one ip s)) as (-> & -> & ->). repeat split.
Qed.

Lemma keeps_identity_compose f g :
  keeps_identity f → keeps_identity g → keeps_identity (fun s => g (f s)).
Proof.
  intros Hf Hg s. destruct (Hg (f s)) as (-> & -> & ->). apply Hf.
Qed.

(** *** Lookups after an update *)

Lemma find_by_name_update n i f l :
  keeps_identity f →
  find_server_by_name n (update_server i f l)
  = option_map (fun s => if String.eqb (server_id s) i then f s else s)
      (find_server_by_name n l).
Proof.
  intros Hf. unfold find_server_by_name, update_server.
  induction l as [|s l IH]; cbn; [reflexivity|].
  replace (server_name (if String.eqb (server_id s) i then f s else s))
    with (server_name s)
    by (destruct (String.eqb (server_id s) i); [symmetry; apply Hf|reflexivity]).
  destruct (String.eqb (server_name s) n); [reflexivity|exact IH].
Qed.

Lemma find_by_id_update i f l :
  keeps_identity f →
  find_server_by_id i (update_server i f l) = option_map f (find_server_by_id i l).
Proof.
  intros Hf. unfold find_server_by_id, update_server.
  induction l as [|s l IH]; cbn; [reflexivity|].
  destruct (String.eqb (server_id s) i) eqn:E.
  - replace (server_id (f s)) with (server_id s) by (symmetry; apply Hf).
    now rewrite E.
  - now rewrite E.
Qed.

Lemma find_by_id_id i l s : find_server_by_id i l = Some s → server_id s = i.
Proof.
  unfold find_server_by_id. intros H. apply find_some in H as [_ H].
  now apply String.eqb_eq.
Qed.

Lemma find_by_name_name n l s : find_server_by_name n l = Some s → server_name s = n.
Proof.
  unfold find_server_by_name. intros H. apply find_some in H as [_ H].
  now apply String.eqb_eq.
Qed.

Lemma find_by_name_to_id n l s :
  find_server_by_name n l = Some s → is_some (find_server_by_id (server_id s) l) = true.
Proof.
  unfold find_server_by_name, find_server_by_id. intros H.
  apply find_some in H as [H _].
  destruct (List.find _ l) eqn:E; [reflexivity|].
  eapply find_none in E; eauto. cbn in E. now rewrite String.eqb_refl in E.
Qed.

Lemma update_server_compose i f g l :
  keeps_identity f →
  update_server i g (update_server i f l) = update_server i (fun s => g (f s)) l.
Proof.
  intros Hf. unfold update_server. rewrite map_map. apply map_ext. intros s.
  destruct (String.eqb (server_id s) i) eqn:E.
  - replace (server_id (f s)) with (server_id s) by (symmetry; apply Hf).
    now rewrite E.
  - now rewrite E.
Qed.

Lemma update_server_id i l : update_server i (fun s => s) l = l.
Proof.
  unfold update_server. rewrite <- (map_id l) at 2. apply map_ext.
  intros s. now destruct (String.eqb _ _).
Qed.

Lemma server_id_refreshed s w : server_id (refreshed s w) = server_id s.
Proof.
  unfold refreshed. destruct (find_server_by_id _ _) eqn:E; [|reflexivity].
  now apply find_by_id_id in E.
Qed.

(** *** Floating and fixed addresses after a change *)

Lemma find_addresses_app t l1 l2 :
  openstack_find_nova_addresses (l1 ++ l2) t
  = openstack_find_nova_addresses l1 t ++ openstack_find_nova_addresses l2 t.
Proof. unfold openstack_find_nova_addresses. apply flat_map_app. Qed.

Lemma observed_attach_one ip s x :
  In x (observed (attach_one ip s)) ↔ x = ip ∨ In x (observed s).
Proof.
  unfold observed, attach_one, attach_address. cbn.
  destruct (addresses s) as [|[n l] rest]; cbn.
  - intuition.
  - rewrite List.filter_app, map_app. cbn. rewrite !in_app_iff. cbn. intuition.
Qed.

Lemma fixed_attach_one ip s : fixed_addresses (attach_one ip s) = fixed_addresses s.
Proof.
  unfold fixed_addresses, attach_one, attach_address. cbn.
  destruct (addresses s) as [|[n l] rest]; cbn; [reflexivity|].
  rewrite List.filter_app. cbn. now rewrite app_nil_r.
Qed.

Lemma observed_detach_one ip s x :
  In x (observed (detach_one ip s)) ↔ In x (observed s) ∧ x ≠ ip.
Proof.
  unfold observed, detach_one, detach_address. cbn.
  induction (addresses s) as [|[n l] rest IH]; cbn; [intuition|].
  rewrite !in_app_iff, IH. clear IH.
  assert (In x (map addr
                  (List.filter (fun i => addr_type_eqb (ip_type i) floating)
                     (List.filter
                        (fun i => negb (addr_type_eqb (ip_type i) floating
                                        && String.eqb (addr i) ip)) l)))
          ↔ In x (map addr
                    (List.filter (fun i => addr_type_eqb (ip_type i) floating) l))
            ∧ x ≠ ip) as ->; [|intuition].
  rewrite !in_map_iff. split.
  - intros (a & <- & Ha). rewrite !filter_In in Ha. destruct Ha as [[Hl Hn] Hf].
    rewrite Hf in Hn. cbn in Hn. apply negb_true_iff, String.eqb_neq in Hn.
    split; [|exact Hn]. exists a. rewrite filter_In. auto.
  - intros [(a & <- & Ha) Hne]. rewrite filter_In in Ha. destruct Ha as [Hl Hf].
    exists a. split; [reflexivity|]. rewrite !filter_In. repeat split; auto.
    rewrite Hf. cbn. now apply negb_true_iff, String.eqb_neq.
Qed.

Lemma fixed_detach_one ip s : fixed_addresses (detach_one ip s) = fixed_addresses s.
Proof.
  unfold fixed_addresses, detach_one, detach_address. cbn.
  induction (addresses s) as [|[n l] rest IH]; cbn; [reflexivity|].
  rewrite IH. f_equal. f_equal. clear IH.
  induction l as [|a l IH]; cbn; [reflexivity|].
  destruct a as [x [|]]; cbn; [now rewrite IH|].
  destruct (String.eqb x ip); cbn; exact IH.
Qed.

Lemma observed_attach_list ips s x :
  In x (observed (attach_list ips s)) ↔ In x ips ∨ In x (observed s).
Proof.
  unfold attach_list. revert s. induction ips as [|ip ips IH]; intros s; cbn.
  - intuition.
  - rewrite IH, observed_attach_one. intuition.
Qed.

Lemma observed_detach_list ips s x :
  In x (observed (detach_list ips s)) ↔ In x (observed s) ∧ ¬ In x ips.
Proof.
  unfold detach_list. revert s. induction ips as [|ip ips IH]; intros s; cbn.
  - intuition.
  - rewrite IH, observed_detach_one. intuition.
Qed.

Lemma fixed_attach_list ips s : fixed_addresses (attach_list ips s) = fixed_addresses s.
Proof.
  unfold attach_list. revert s. induction ips as [|ip ips IH]; intros s; cbn.
  - reflexivity.
  - now rewrite IH, fixed_attach_one.
Qed.

Lemma fixed_detach_list ips s : fixed_addresses (detach_list ips s) = fixed_addresses s.
Proof.
  unfold detach_list. revert s. induction ips as [|ip ips IH]; intros s; cbn.
  - reflexivity.
  - now rewrite IH, fixed_detach_one.
Qed.

End provider_facts.

Module provider_steps.
Import provider provider_terms provider_facts.

Lemma attach_floating_ip_effect i ip w r w' :
  attach_floating_ip i ip w = (r, w') →
  (∃ u, r = inr u ∧ servers w' = update_server i (attach_one ip) (servers w))
  ∨ (∃ e, r = inl e ∧ w' = w).
Proof.
  unfold attach_floating_ip. intros H.
  destruct (find_server_by_id i (servers w)); [|inversion H; eauto].
  destruct (is_free ip (floating_ip_table w)); inversion H; subst; eauto.
Qed.

Lemma detach_floating_ip_effect i ip w r w' :
  detach_floating_ip i ip w = (r, w') →
  (∃ u, r = inr u ∧ servers w' = update_server i (detach_one ip) (servers w))
  ∨ (∃ e, r = inl e ∧ w' = w).
Proof.
  unfold detach_floating_ip. intros H.
  destruct (find_server_by_id i (servers w)); inversion H; subst; eauto.
Qed.

(** Attaching a list stops at the first refusal; the addresses attached so
    far stay attached. *)
Lemma attach_all_effect i ips w r w' :
  attach_all i ips w = (r, w') →
  ∃ att, servers w' = update_server i (attach_list att) (servers w)
         ∧ (∀ u, r = inr u → att = ips).
Proof.
  revert w. induction ips as [|ip ips IH]; intros w H; cbn in H.
  - inversion H; subst. exists []. split; [|reflexivity].
    symmetry. apply update_server_id.
  - destruct (attach_floating_ip i ip w) as [[e|[]] w1] eqn:E.
    + inversion H; subst. apply attach_floating_ip_effect in E as [(u & ? & ?)|(e' & ? & ->)];
        [discriminate|].
      exists []. split; [symmetry; apply update_server_id|discriminate].
    + apply attach_floating_ip_effect in E as [(u & _ & E)|(e' & ? & ?)];
        [|discriminate].
      apply IH in H as (att & Hs & Hr). exists (ip :: att). split.
      * rewrite Hs, E, update_server_compose by apply keeps_identity_attach_one.
        reflexivity.
      * intros v Hv. f_equal. eauto.
Qed.

Lemma sim_add_ip_list_effect s ips w r w' :
  sim_add_ip_list s ips w = (r, w') →
  ∃ att, servers w' = update_server (server_id s) (attach_list att) (servers w)
         ∧ (∀ s', r = inr s' → att = ips ∧ server_id s' = server_id s).
Proof.
  unfold sim_add_ip_list. intros H.
  destruct (attach_all (server_id s) ips w) as [[e|u] w1] eqn:E;
    apply attach_all_effect in E as (att & Hs & Hr);
    inversion H; subst; exists att; split; auto.
  - discriminate.
  - intros s' Hs'. inversion Hs'; subst. split; [eauto|].
    apply server_id_refreshed.
Qed.

Lemma sim_add_ips_to_server_effect s auto_ip ips ip_pool w r w' :
  sim_add_ips_to_server s auto_ip ips ip_pool w = (r, w') →
  ∃ att, servers w' = update_server (server_id s) (attach_list att) (servers w)
         ∧ (∀ s', r = inr s' →
              added_by_policy auto_ip ips ip_pool s att
              ∧ server_id s' = server_id s).
Proof.
  unfold sim_add_ips_to_server, added_by_policy, observed. intros H.
  assert (Hnone : ∀ w, servers w = update_server (server_id s) (attach_list []) (servers w))
    by (intros; symmetry; apply update_server_id).
  destruct (truthy_list ip_pool).
  { destruct (first_free_of_pools _ _) as [ip|].
    - apply sim_add_ip_list_effect in H as (att & Hs & Hr).
      exists att. split; [exact Hs|]. intros s' E. destruct (Hr _ E) as [-> ?]. eauto.
    - inversion H; subst. exists []. split; [apply Hnone|discriminate]. }
  destruct (truthy_list ips).
  { apply sim_add_ip_list_effect in H as (att & Hs & Hr).
    exists att. split; [exact Hs|]. exact Hr. }
  destruct auto_ip; cbn [andb].
  - destruct (nonempty _); cbn [negb].
    + inversion H; subst. exists []. split; [apply Hnone|].
      intros s' E. inversion E; subst. split; reflexivity.
    + destruct (first_free _) as [ip|].
      * apply sim_add_ip_list_effect in H as (att & Hs & Hr).
        exists att. split; [exact Hs|]. intros s' E. destruct (Hr _ E) as [-> ?]. eauto.
      * inversion H; subst. exists []. split; [apply Hnone|discriminate].
  - inversion H; subst. exists []. split; [apply Hnone|].
    intros s' E. inversion E; subst. auto.
Qed.

Lemma _delete_floating_ip_list_effect s extra w tr out w' tr' :
  _delete_floating_ip_list s extra (w, tr) = (out, (w', tr')) →
  ∃ det, servers w' = update_server (server_id s) (detach_list det) (servers w)
         ∧ (∀ u, out = Return u → det = extra).
Proof.
  revert w tr. induction extra as [|ip extra IH]; intros w tr H.
  - cbn in H. inversion H; subst. exists []. split; [|reflexivity].
    symmetry. apply update_server_id.
  - cbn in H. unfold bind, call in H. cbn [fst snd] in H.
    cbn [remove_floating_ip reference_cloud] in H.
    destruct (detach_floating_ip (server_id s) ip w) as [[e|[]] w1] eqn:E.
    + inversion H; subst.
      apply detach_floating_ip_effect in E as [(u & ? & ?)|(e' & ? & ->)];
        [discriminate|].
      exists []. split; [symmetry; apply update_server_id|discriminate].
    + apply detach_floating_ip_effect in E as [(u & _ & E)|(e' & ? & ?)];
        [|discriminate].
      apply IH in H as (det & Hs & Hr). exists (ip :: det). split.
      * rewrite Hs, E, update_server_compose by apply keeps_identity_detach_one.
        reflexivity.
      * intros v Hv. f_equal. eauto.
Qed.

End provider_steps.

(** ** Convergence *)

Section converged_noop.

Context {W : Type} {cloud : shade_cloud W}.

Lemma _check_floating_ips_converged p s (st : W * list Call) :
  converged p s → _check_floating_ips p s st = (Return (false, s), st).
Proof.
  intros H. destruct (policy_set p) eqn:Hp.
  2: { now apply _check_floating_ips_no_policy. }
  destruct (H Hp) as [Ho Hl].
  destruct (truthy_list (params.floating_ips p)) eqn:Hi.
  2: { now apply _check_floating_ips_some_no_list. }
  destruct (Hl eq_refl) as [Hm He].
  unfold _check_floating_ips. unfold policy_set in Hp. rewrite Hp, Hi.
  unfold missing_ips, extra_ips, observed, desired in *.
  destruct (openstack_find_nova_addresses (addresses s) floating); [done|].
  cbn [nonempty negb]. rewrite Hm, He. reflexivity.
Qed.

End converged_noop.

Module provider_convergence.
Import provider provider_terms provider_facts provider_steps.

Lemma nonempty_false {A : Type} (l : list A) : nonempty l = false → l = [].
Proof. now destruct l. Qed.

Lemma _check_floating_ips_effect p s w tr out w' tr' :
  _check_floating_ips p s (w, tr) = (out, (w', tr')) →
  ∃ att det,
    servers w'
    = update_server (server_id s) (fun x => detach_list det (attach_list att x))
        (servers w)
    ∧ (∀ r, out = Return r → attached_by p s att ∧ det = detached_by p s).
Proof.
  intros H. unfold _check_floating_ips in H.
  unfold attached_by, detached_by, policy_set, missing_ips, extra_ips, desired in *.
  assert (Hnone : ∀ w, servers w
            = update_server (server_id s)
                (fun x => detach_list [] (attach_list [] x)) (servers w))
    by (intros; symmetry; apply update_server_id).
  destruct (_ || _ || _) eqn:Hp; cbn [negb andb].
  2: { inversion H; subst. exists [], []. split; [apply Hnone|]. auto. }
  destruct (nonempty (observed s)) eqn:Ho; unfold observed in Ho; rewrite Ho in H;
    cbn [negb andb] in *.
  2: { unfold bind, call, ret in H. cbn [fst snd] in H.
       cbn [add_ips_to_server reference_cloud] in H.
       destruct (sim_add_ips_to_server _ _ _ _ w) as [[e|s'] w1] eqn:E;
         apply sim_add_ips_to_server_effect in E as (att & Hs & Hr);
         inversion H; subst; exists att, []; (split; [exact Hs|]).
       - discriminate.
       - intros r Er. split; [|reflexivity]. eapply Hr; eauto. }
  destruct (truthy_list (params.floating_ips p)) eqn:Hi.
  2: { inversion H; subst. exists [], []. split; [apply Hnone|]. auto. }
  unfold observed.
  set (missing := List.filter _ (default [] (params.floating_ips p))) in *.
  set (extra := List.filter _ (openstack_find_nova_addresses _ _)) in *.
  unfold bind at 1 in H.
  destruct (nonempty missing) eqn:Hm.
  - unfold bind, call, ret in H. cbn [fst snd] in H.
    cbn [add_ip_list reference_cloud] in H.
    destruct (sim_add_ip_list s missing w) as [[e|s1] w1] eqn:E;
      apply sim_add_ip_list_effect in E as (att & Hs & Hr); cbn [snd] in H.
    { inversion H; subst. exists att, []. split; [exact Hs|discriminate]. }
    destruct (Hr _ eq_refl) as [-> Hid].
    destruct (nonempty extra) eqn:He.
    + destruct (_delete_floating_ip_list s1 extra _) as [o [w2 tr2]] eqn:Hd.
      apply _delete_floating_ip_list_effect in Hd as (det & Hs2 & Hr2).
      assert (Hw : w2 = w') by (destruct o; inversion H; reflexivity).
      exists missing, det. split.
      * rewrite <- Hw, Hs2, Hid, Hs, update_server_compose
          by apply keeps_identity_attach_list.
        reflexivity.
      * intros r Er. destruct o; inversion H; subst; try discriminate.
        split; [reflexivity|]. eapply Hr2; eauto.
    + inversion H; subst. apply nonempty_false in He. rewrite He.
      exists missing, []. split; [exact Hs|]. auto.
  - unfold ret in H at 1. cbn [snd] in H. apply nonempty_false in Hm.
    destruct (nonempty extra) eqn:He.
    + unfold bind, ret in H.
      destruct (_delete_floating_ip_list s extra _) as [o [w2 tr2]] eqn:Hd.
      apply _delete_floating_ip_list_effect in Hd as (det & Hs2 & Hr2).
      assert (Hw : w2 = w') by (destruct o; inversion H; reflexivity).
      exists [], det. split.
      * rewrite <- Hw. exact Hs2.
      * intros r Er. destruct o; inversion H; subst; try discriminate.
        split; [now rewrite Hm|]. eapply Hr2; eauto.
    + inversion H; subst. apply nonempty_false in He. rewrite He, Hm.
      exists [], []. split; [apply Hnone|]. auto.
Qed.

Lemma keeps_identity_converge att det :
  keeps_identity (fun x => detach_list det (attach_list att x)).
Proof.
  apply keeps_identity_compose;
    [apply keeps_identity_attach_list|apply keeps_identity_detach_list].
Qed.

Lemma named_after_update n w w' s f :
  keeps_identity f →
  named n w = Some s →
  servers w' = update_server (server_id s) f (servers w) →
  named n w' = Some (f s).
Proof.
  unfold named. intros Hf Hn ->. rewrite find_by_name_update, Hn by exact Hf.
  cbn. now rewrite String.eqb_refl.
Qed.

Lemma filter_nil {A : Type} (f : A → bool) l :
  (∀ x, In x l → f x = false) → List.filter f l = [].
Proof.
  induction l as [|a l IH]; cbn; intros H; [reflexivity|].
  rewrite (H a) by auto. apply IH. auto.
Qed.

Lemma truthy_list_inhabited (o : option (list string)) :
  truthy_list o = true → ∃ x, In x (default [] o).
Proof. destruct o as [[|x l]|]; cbn; try discriminate. eauto. Qed.

Lemma nonempty_In {A : Type} (l : list A) x : In x l → l ≠ [].
Proof. destruct l; [contradiction|discriminate]. Qed.

Lemma converged_after p s att :
  one_policy p → attached_by p s att →
  converged p (detach_list (detached_by p s) (attach_list att s)).
Proof.
  unfold one_policy, attached_by, detached_by, converged.
  intros Hone Hatt Hp. rewrite Hp in *. cbn [negb andb] in *.
  destruct (nonempty (observed s)) eqn:Ho; cbn [negb andb] in *.
  - destruct (truthy_list (params.floating_ips p)) eqn:Hi; subst att.
    + assert (Hin : ∀ x, In x (observed (detach_list (extra_ips p s)
                                          (attach_list (missing_ips p s) s)))
                         ↔ In x (desired p)).
      { intros x. rewrite observed_detach_list, observed_attach_list.
        unfold extra_ips, missing_ips. rewrite !filter_In, !negb_true_iff.
        rewrite !py_in_not_In.
        destruct (py_in x (observed s)) eqn:E, (py_in x (desired p)) eqn:E';
          repeat match goal with
                 | H : py_in _ _ = true |- _ => apply py_in_In in H
                 | H : py_in _ _ = false |- _ => apply py_in_not_In in H
                 end; tauto. }
      split.
      * destruct (truthy_list_inhabited _ Hi) as [d Hd].
        eapply nonempty_In. apply Hin. exact Hd.
      * intros _. split; apply filter_nil; intros x Hx; apply negb_false_iff,
          py_in_In; apply Hin; auto.
    + cbn. split; [|discriminate]. intros E. now rewrite E in Ho.
  - apply nonempty_false in Ho. unfold added_by_policy in Hatt.
    assert (Hin : ∀ x, In x (observed (detach_list [] (attach_list att s)))
                       ↔ In x att).
    { intros x. rewrite observed_detach_list, observed_attach_list, Ho.
      cbn. tauto. }
    destruct (truthy_list (params.floating_ip_pools p)) eqn:Hpool.
    { destruct Hatt as [ip ->]. split.
      - eapply nonempty_In. apply Hin. now left.
      - intros Hi. specialize (Hone Hi). discriminate. }
    destruct (truthy_list (params.floating_ips p)) eqn:Hi.
    { subst att. split.
      - destruct (truthy_list_inhabited _ Hi) as [d Hd].
        eapply nonempty_In. apply Hin. exact Hd.
      - intros _. unfold missing_ips, extra_ips, desired.
        split; apply filter_nil; intros x Hx; apply negb_false_iff, py_in_In.
        + apply Hin. exact Hx.
        + apply Hin. exact Hx. }
    unfold policy_set in Hp. rewrite Hpool, Hi in Hp. cbn in Hp. rewrite Hp in Hatt.
    rewrite Ho in Hatt. cbn in Hatt. destruct Hatt as [ip ->]. split.
    + eapply nonempty_In. apply Hin. now left.
    + discriminate.
Qed.

End provider_convergence.

(** ** Idempotence on the reference provider *)

Module provider_reconcile.
Import provider provider_terms provider_facts provider_steps provider_convergence.

Ltac step H :=
  match type of H with
  | context [match ?x with _ => _ end] =>
      lazymatch x with
      | context [match _ with _ => _ end] => fail
      | _ => destruct x eqn:?
      end
  end; cbn [fst snd] in H; try discriminate.

Lemma _network_args_loop_reads nics acc (w : world) tr out w' tr' :
  _network_args_loop nics acc (w, tr) = (out, (w', tr')) → w' = w.
Proof.
  revert acc tr. induction nics as [|net nics IH]; intros acc tr H; cbn in H.
  - now inversion H.
  - repeat match type of H with
           | context [if ?b then _ else _] => destruct b
           end; try (eapply IH; eassumption).
    + unfold bind, call in H. cbn in H.
      destruct (sim_lookup _ (networks w)); [eapply IH; eassumption|now inversion H].
    + unfold bind, call in H. cbn in H.
      destruct (sim_lookup _ (ports w)); [eapply IH; eassumption|now inversion H].
Qed.

Lemma named_created n w s0 :
  named n w = None → server_name s0 = n →
  named n (with_servers w (servers w ++ [s0])) = Some s0.
Proof.
  unfold named, find_server_by_name. cbn. intros Hn Hs.
  induction (servers w) as [|s l IH]; cbn in *.
  - rewrite Hs, String.eqb_refl. reflexivity.
  - destruct (String.eqb (server_name s) n); [discriminate|auto].
Qed.

(** After a successful creation the named instance is the new one; when the
    call waited, its floating addresses follow the policy. *)
Lemma sim_create_server_effect p a w s' w1 :
  one_policy p →
  named (params.name p) w = None →
  bk_name a = params.name p →
  ca_ip_pool a = params.floating_ip_pools p →
  ca_ips a = params.floating_ips p →
  ca_auto_ip a = params.auto_floating_ip p →
  sim_create_server a w = (inr s', w1) →
  ∃ s1, named (params.name p) w1 = Some s1
        ∧ (py_in (status s1) accepted_statuses = true → converged p s1).
Proof.
  intros Hone Hn Hname Hpool Hips Hauto H. unfold sim_create_server in H.
  set (s0 := {| server_id := _; server_name := bk_name a; status := _;
                addresses := _ |}) in H.
  assert (Hs0 : named (params.name p) (with_servers w (servers w ++ [s0])) = Some s0)
    by (apply named_created; auto).
  destruct (ca_wait a) eqn:Hw.
  - apply sim_add_ips_to_server_effect in H as (att & Hs & Hr).
    destruct (Hr _ eq_refl) as [Hadd _].
    exists (attach_list att s0). split.
    + apply (named_after_update _ (with_servers w (servers w ++ [s0])) w1 s0
               (attach_list att));
        [apply keeps_identity_attach_list|exact Hs0|exact Hs].
    + intros _.
      assert (Hatt : attached_by p s0 att).
      { unfold attached_by. rewrite Hpool, Hips, Hauto in Hadd.
        destruct (policy_set p) eqn:Hp; cbn [negb].
        - exact Hadd.
        - unfold policy_set in Hp. unfold added_by_policy in Hadd.
          apply orb_false_elim in Hp as [Hp Ha].
          apply orb_false_elim in Hp as [Hp1 Hp2].
          now rewrite Hp1, Hp2, Ha in Hadd. }
      pose proof (converged_after p s0 att Hone Hatt) as Hc.
      replace (detached_by p s0) with (@nil string) in Hc; [exact Hc|].
      unfold detached_by. now rewrite andb_false_r.
  - inversion H; subst. exists s0. split; [exact Hs0|].
    cbn. discriminate.
Qed.

(** The world after a successful present-state run holds the named instance;
    if its status is one the module accepts, the policy is satisfied. *)
Lemma reconcile_present_effect p w tr r w1 tr1 :
  params.state p = present → one_policy p →
  reconcile_block p (w, tr) = (ExitJson r, (w1, tr1)) →
  ∃ s1, named (params.name p) w1 = Some s1
        ∧ (py_in (status s1) accepted_statuses = true → converged p s1).
Proof.
  intros Hst Hone H.
  unfold reconcile_block, try_except in H.
  unfold bind at 1, call at 1 in H. cbn [fst snd openstack_cloud reference_cloud] in H.
  rewrite Hst in H. unfold bind at 1 in H.
  unfold _get_server_state in H. rewrite Hst in H.
  unfold bind at 1 2, call at 1 in H.
  cbn [fst snd get_server reference_cloud sim_get_server] in H.
  fold (named (params.name p) w) in H.
  destruct (named (params.name p) w) as [s|] eqn:Hn.
  - cbn [state_eqb] in H. unfold bind at 1 2 in H.
    destruct (py_in (status s) _) eqn:Hacc; cbn [negb] in H.
    2: { cbn in H. discriminate. }
    unfold ret at 1 in H.
    destruct (_check_floating_ips p s _) as [out [w2 tr2]] eqn:Hc.
    pose proof (_check_floating_ips_outcome _ _ _ _ _ Hc) as [[[c s'] ->]|[e ->]].
    2: { destruct e; discriminate. }
    unfold _exit_hostvars, bind, call, exit_json in H. cbn in H.
    inversion H; subst.
    apply _check_floating_ips_effect in Hc as (att & det & Hs & Hr).
    destruct (Hr _ eq_refl) as [Hatt ->].
    exists (detach_list (detached_by p s) (attach_list att s)). split.
    + apply (named_after_update _ w w1 s
               (fun x => detach_list (detached_by p s) (attach_list att x)));
        [apply keeps_identity_converge|exact Hn|exact Hs].
    + intros _. now apply converged_after.
  - cbn [state_eqb andb ret] in H.
    destruct (_create_server p _) as [out [w2 tr2]] eqn:Hc.
    assert (Hw : out = ExitJson r ∧ w2 = w1)
      by (destruct out as [?| | |[m x|m]]; inversion H; auto).
    destruct Hw as [-> ->]. clear H.
    unfold _create_server, _network_args, _exit_hostvars, bind, call, ret,
      fail_json, exit_json in Hc.
    cbn [fst snd get_image_id get_flavor get_flavor_by_ram create_server
           get_hostvars_from_server reference_cloud sim_get_image_id
           sim_get_flavor sim_get_flavor_by_ram sim_get_hostvars_from_server] in Hc.
    repeat step Hc.
    all: repeat match goal with
                | x : (world * list Call)%type |- _ => destruct x
                end; cbn [fst snd] in *.
    all: match goal with
         | E : _network_args_loop _ _ _ = _ |- _ =>
             try (now apply _network_args_loop_no_exit in E);
             apply _network_args_loop_reads in E; subst
         end.
    all: inversion Hc; subst.
    all: match goal with
         | E : sim_create_server _ _ = _ |- _ =>
             apply (sim_create_server_effect p) in E; auto
         end.
Qed.

(** A present-state run that finds the instance in an accepted status and
    converged changes nothing. *)
Lemma reconcile_converged p w tr s :
  params.state p = present →
  named (params.name p) w = Some s →
  py_in (status s) accepted_statuses = true →
  converged p s →
  ∃ h,
    reconcile_block p (w, tr)
    = (ExitJson (exit_server false s (server_id s) h),
       (w, tr ++ [c_openstack_cloud (pop_userdata p); c_get_server (params.name p);
                  c_get_hostvars_from_server s])).
Proof.
  intros Hst Hn Hacc Hc. eexists.
  unfold reconcile_block, try_except.
  unfold bind at 1, call at 1. cbn [fst snd openstack_cloud reference_cloud].
  rewrite Hst. unfold bind at 1.
  unfold _get_server_state. rewrite Hst.
  unfold bind at 1 2, call at 1.
  cbn [fst snd get_server reference_cloud sim_get_server].
  fold (named (params.name p) w). rewrite Hn.
  cbn [state_eqb]. unfold bind at 1 2.
  unfold accepted_statuses in Hacc. rewrite Hacc. cbn [negb]. unfold ret at 1.
  rewrite _check_floating_ips_converged by exact Hc.
  unfold _exit_hostvars, bind, call, exit_json. cbn.
  rewrite <- !app_assoc. reflexivity.
Qed.

Lemma validation_inr HAS_SHADE a p :
  validation HAS_SHADE a = inr p →
  first_conflict a mutually_exclusive_pairs = None
  ∧ ∃ n, args.name a = Some n ∧ p = argument_spec n a.
Proof.
  unfold validation. intros H.
  destruct (first_conflict a mutually_exclusive_pairs) as [[x y]|]; [discriminate|].
  split; [reflexivity|].
  destruct (args.name a) as [n|]; [|discriminate]. exists n. split; [reflexivity|].
  repeat match type of H with
         | context [if ?b then _ else _] => destruct b; try discriminate
         end.
  now inversion H.
Qed.

Lemma validation_one_policy HAS_SHADE a p :
  validation HAS_SHADE a = inr p → one_policy p.
Proof.
  intros H. apply validation_inr in H as (Hc & n & Hn & ->).
  unfold one_policy. cbn. intros Hi.
  unfold first_conflict in Hc.
  pose proof (find_none _ _ Hc ("floating_ips", "floating_ip_pools")) as Hx.
  cbn [fst snd] in Hx.
  rewrite supplied_floating_ips, supplied_floating_ip_pools in Hx.
  destruct (args.floating_ips a) as [l|]; [|discriminate].
  destruct (args.floating_ip_pools a) as [l'|]; [|reflexivity].
  cbn in Hx. discriminate Hx. cbn. tauto.
Qed.

End provider_reconcile.

(** ** The claims *)

Section any_cloud.

Context {W : Type} {cloud : shade_cloud W}.

(** C10: an entry of [nics] that contains none of the keys net-id, net-name,
    port-id, port-name changes nothing in what [_network_args] does (no
    failure, no call, no entry in the result); and the list it returns holds,
    in their original order, what the recognised entries become. *)
Theorem network_entries_skipped_or_kept_in_order :
  (∀ (p p' : params.t) l1 (net : dict) l2 (st : W * list Call),
     params.nics p = l1 ++ net :: l2 → params.nics p' = l1 ++ l2 →
     net !! "net-id" = None → net !! "net-name" = None →
     net !! "port-id" = None → net !! "port-name" = None →
     _network_args p st = _network_args p' st)
  ∧ (∀ (p : params.t) (st st' : W * list Call) args,
       _network_args p st = (Return args, st') →
       Forall2 emitted (List.filter recognised (params.nics p)) args).
Proof.
  split.
  - intros p p' l1 net l2 st Hp Hp' H1 H2 H3 H4.
    unfold _network_args. rewrite Hp, Hp', !_network_args_loop_app.
    unfold bind. destruct (_network_args_loop l1 [] st) as [[acc| | |] st1]; auto.
    apply _network_args_loop_skip. now apply keyless_not_recognised.
  - intros p st st' args H. unfold _network_args in H.
    apply _network_args_loop_order in H as (out & -> & HF). exact HF.
Qed.

(** C4 (amended): with target state present, an instance observed in
    BUILDING or any other status outside ACTIVE, SHUTOFF, PAUSED, SUSPENDED
    is not waited for: [main] fails at once with the not-active failure
    naming the status, the calls made being the connection and the one
    lookup. *)
Theorem transitional_status_fails_at_once
  (a : args.t) (p : params.t) (w w0 w1 : W) s :
  validation true a = inr p →
  params.state p = present →
  openstack_cloud (pop_userdata p) w = (inr tt, w0) →
  get_server (params.name p) w0 = (inr (Some s), w1) →
  py_in (status s) accepted_statuses = false →
  run (main true a) w
  = (FailJson (fail_msg ("The instance is available but not Active state: "
                         +:+ status s) None),
     (w1, [c_openstack_cloud (pop_userdata p); c_get_server (params.name p)])).
Proof.
  intros Hv Hs Hc Hg Hst. unfold run. rewrite main_validation, Hv.
  erewrite reconcile_not_active; eauto.
Qed.

(** C7: under the auto-assign policy (auto-assign on, no list, no pools), a
    server observed with no floating address gets exactly one call,
    [add_ips_to_server] with [auto_ip=True] and neither addresses nor pools,
    and the step reports changed=true with the provider's answer; a server
    observed with one or more floating addresses gets no call at all and the
    step reports changed=false. *)
Theorem auto_assign_adds_one_or_nothing (p : params.t) (s : Server) (w : W) tr :
  params.auto_floating_ip p = true →
  truthy_list (params.floating_ips p) = false →
  truthy_list (params.floating_ip_pools p) = false →
  (observed s = [] →
   _check_floating_ips p s (w, tr)
   = (match fst (add_ips_to_server s true (params.floating_ips p)
                   (params.floating_ip_pools p) w) with
      | inr s' => Return (true, s')
      | inl e => Raised e
      end,
      (snd (add_ips_to_server s true (params.floating_ips p)
              (params.floating_ip_pools p) w),
       tr ++ [c_add_ips_to_server s true (params.floating_ips p)
                (params.floating_ip_pools p)])))
  ∧ (observed s ≠ [] →
     _check_floating_ips p s (w, tr) = (Return (false, s), (w, tr))).
Proof.
  intros Ha Hi Hp. split.
  - intros Ho. rewrite _check_floating_ips_none_observed; auto.
    + now rewrite Ha.
    + unfold policy_set. rewrite Ha. apply orb_true_r.
  - intros Ho. now apply _check_floating_ips_some_no_list.
Qed.

Lemma _check_floating_ips_removals p s (w : W) tr out w' tr' :
  _check_floating_ips p s (w, tr) = (out, (w', tr')) →
  ∃ new, tr' = tr ++ new
         ∧ ∀ i a, In (c_remove_floating_ip i a) new → In a (observed s).
Proof.
  intros H.
  destruct (truthy_list (params.floating_ips p)) eqn:Hi.
  - apply _check_floating_ips_calls in H as (t & gone & rest & Hx & -> & _); auto.
    eexists. split; [reflexivity|]. intros i a Hin.
    apply in_app_or in Hin as [Hin|Hin].
    + unfold attach_calls in Hin.
      repeat match type of Hin with
             | context [if ?b then _ else _] => destruct b
             end; cbn in Hin; intuition discriminate.
    + apply in_map_iff in Hin as (x & E & Hin). inversion E; subst.
      assert (Hex : In a (extra_ips p s)) by (rewrite Hx; apply in_or_app; auto).
      unfold extra_ips in Hex. now apply filter_In in Hex.
  - destruct (policy_set p) eqn:Hp.
    2: { rewrite _check_floating_ips_no_policy in H by exact Hp.
         inversion H; subst. exists []. rewrite app_nil_r. split; [reflexivity|].
         intros ? ? []. }
    destruct (observed s) as [|x l] eqn:Ho.
    + rewrite _check_floating_ips_none_observed in H by auto.
      inversion H; subst. eexists. split; [reflexivity|].
      intros i a [E|[]]. discriminate.
    + rewrite _check_floating_ips_some_no_list in H; auto.
      2: { rewrite Ho. discriminate. }
      inversion H; subst. exists []. rewrite app_nil_r. split; [reflexivity|].
      intros ? ? [].
Qed.

End any_cloud.

Module claims.
Import provider provider_terms provider_facts provider_steps
  provider_convergence provider_reconcile examples.

(** C2: under a policy with an explicit list, the calls of the convergence
    step are the attach call (carrying every missing address) followed by
    the removals, which run through the extra addresses in order and are
    complete when the step returns, on any cloud; on the reference provider,
    after the step has returned, the floating addresses of the instance are
    exactly the desired ones; and for observed = [10.0.0.1, 10.0.0.2],
    desired = [10.0.0.2, 10.0.0.3] the calls are: attach 10.0.0.3, then
    detach 10.0.0.1. *)
Theorem explicit_list_attach_then_detach :
  (∀ (W : Type) (cloud : shade_cloud W) p s (w w' : W) tr tr' out,
     truthy_list (params.floating_ips p) = true →
     _check_floating_ips p s (w, tr) = (out, (w', tr')) →
     ∃ target gone rest,
       extra_ips p s = gone ++ rest
       ∧ tr' = tr ++ attach_calls p s ++ map (c_remove_floating_ip target) gone
       ∧ (∀ r, out = Return r → rest = []))
  ∧ (∀ p s (w w' : world) tr tr' c s',
       truthy_list (params.floating_ips p) = true →
       truthy_list (params.floating_ip_pools p) = false →
       named (server_name s) w = Some s →
       _check_floating_ips p s (w, tr) = (Return (c, s'), (w', tr')) →
       ∃ s1, named (server_name s) w' = Some s1
             ∧ ∀ x, In x (observed s1) ↔ In x (desired p))
  ∧ (let r := run (_check_floating_ips (argument_spec "vm1" desired_two) observed_two)
                (cloud_with [observed_two]) in
     snd (snd r)
     = [c_add_ip_list observed_two ["10.0.0.3"];
        c_remove_floating_ip "s-1" "10.0.0.1"]
     ∧ option_map observed (named "vm1" (fst (snd r)))
       = Some ["10.0.0.2"; "10.0.0.3"]).
Proof.
  split; [|split].
  - intros W cloud p s w w' tr tr' out Hi H.
    apply _check_floating_ips_calls in H as (t & gone & rest & Hx & Ht & Hr); auto.
    exists t, gone, rest. repeat split; auto. intros r E. now apply Hr in E.
  - intros p s w w' tr tr' c s' Hi Hp Hn H.
    apply _check_floating_ips_effect in H as (att & det & Hs & Hr).
    destruct (Hr _ eq_refl) as [Hatt ->].
    exists (detach_list (detached_by p s) (attach_list att s)). split.
    + apply (named_after_update _ w w' s
               (fun x => detach_list (detached_by p s) (attach_list att x)));
        [apply keeps_identity_converge|exact Hn|exact Hs].
    + assert (Hone : one_policy p) by (intros _; exact Hp).
      pose proof (converged_after p s att Hone Hatt) as Hc.
      assert (Hpol : policy_set p = true)
        by (unfold policy_set; rewrite Hi; now rewrite orb_true_r).
      destruct (Hc Hpol) as [_ Hme]. destruct (Hme Hi) as [Hm He].
      set (s1 := detach_list _ _) in *. intros x. split; intros Hx.
      * destruct (py_in x (desired p)) eqn:E; [now apply py_in_In|].
        assert (In x (extra_ips p s1))
          by (unfold extra_ips; apply filter_In; now rewrite E).
        rewrite He in *. contradiction.
      * destruct (py_in x (observed s1)) eqn:E; [now apply py_in_In|].
        assert (In x (missing_ips p s1))
          by (unfold missing_ips; apply filter_In; now rewrite E).
        rewrite Hm in *. contradiction.
  - vm_compute. split; reflexivity.
Qed.

Lemma explicit_list_attach_then_detach_witness :
  ∃ s1, named "vm1"
          (fst (snd (run (_check_floating_ips (argument_spec "vm1" desired_two)
                            observed_two) (cloud_with [observed_two]))))
        = Some s1
        ∧ ∀ x, In x (observed s1) ↔ In x ["10.0.0.2"; "10.0.0.3"].
Proof.
  exact (proj1 (proj2 explicit_list_attach_then_detach)
           (argument_spec "vm1" desired_two) observed_two
           (cloud_with [observed_two]) _ [] _ _ _
           eq_refl eq_refl eq_refl eq_refl).
Defined.

(** C8: the addresses a convergence step detaches are floating addresses of
    the observed record, on any cloud; and on the reference provider the
    fixed addresses of every instance are the same after the step as before
    it, whatever the policy and however the step ends. *)
Theorem convergence_leaves_fixed_addresses :
  (∀ (W : Type) (cloud : shade_cloud W) p s (w w' : W) tr tr' out,
     _check_floating_ips p s (w, tr) = (out, (w', tr')) →
     ∃ new, tr' = tr ++ new
            ∧ ∀ i a, In (c_remove_floating_ip i a) new → In a (observed s))
  ∧ (∀ p s (w : world) tr,
       map fixed_addresses
         (servers (fst (snd (_check_floating_ips p s (w, tr)))))
       = map fixed_addresses (servers w)).
Proof.
  split.
  - intros W cloud p s w w' tr tr' out H.
    eapply _check_floating_ips_removals; eauto.
  - intros p s w tr.
    destruct (_check_floating_ips p s (w, tr)) as [out [w' tr']] eqn:H.
    apply _check_floating_ips_effect in H as (att & det & Hs & _).
    cbn [fst snd]. rewrite Hs. unfold update_server. rewrite map_map.
    apply map_ext. intros x. destruct (String.eqb _ _); [|reflexivity].
    now rewrite fixed_detach_list, fixed_attach_list.
Qed.

Lemma convergence_leaves_fixed_addresses_witness :
  ∃ new,
    snd (snd (run (_check_floating_ips (argument_spec "vm1" desired_two)
                     observed_two) (cloud_with [observed_two])))
    = [] ++ new
    ∧ ∀ i a, In (c_remove_floating_ip i a) new → In a (observed observed_two).
Proof.
  exact (proj1 convergence_leaves_fixed_addresses world _
           (argument_spec "vm1" desired_two) observed_two
           (cloud_with [observed_two]) _ [] _ _ eq_refl).
Defined.

(** C4 (as stated) fails: an instance found in BUILD status is not waited
    for. *)
Lemma no_wait_for_building_instance : ¬ waits_for_terminal_status.
Proof.
  intros H.
  specialize (H auto_task (argument_spec "vm1" auto_task)
                (cloud_with [vm1 "BUILD" [fx "192.168.0.5"]])
                (vm1 "BUILD" [fx "192.168.0.5"])
                eq_refl eq_refl eq_refl eq_refl eq_refl).
  vm_compute in H. lia.
Qed.

(** C5 (as stated) fails: a run that creates the instance without waiting
    succeeds, and the same run again fails on the instance still building. *)
Lemma second_run_fails_on_building_instance : ¬ second_run_unchanged.
Proof.
  intros H.
  destruct (H no_wait_task (cloud_with []) _ _ _ eq_refl eq_refl)
    as (r2 & st2 & E & _).
  vm_compute in E. discriminate.
Qed.

(** C5 (amended): when a present-state run has succeeded on the reference
    provider and the named instance is in one of the statuses the module
    accepts (ACTIVE, SHUTOFF, PAUSED, SUSPENDED), the same run again succeeds
    with changed=false and leaves the provider as it is. *)
Theorem second_run_reports_unchanged
  (HAS_SHADE : bool) (a : args.t) (w w1 : world) r1 tr1 :
  target_present a →
  run (main HAS_SHADE a) w = (ExitJson r1, (w1, tr1)) →
  (∀ s, named (default "" (args.name a)) w1 = Some s →
        py_in (status s) accepted_statuses = true) →
  ∃ r2 tr2,
    run (main HAS_SHADE a) w1 = (ExitJson r2, (w1, tr2)) ∧ changed_of r2 = false.
Proof.
  unfold run. intros Hp H Hacc. rewrite main_validation in *.
  destruct (validation HAS_SHADE a) as [f|p] eqn:Hv; [discriminate|].
  pose proof (validation_one_policy _ _ _ Hv) as Hone.
  apply validation_inr in Hv as (_ & n & Hn & Hpn).
  assert (Hst : params.state p = present) by (subst p; exact Hp).
  assert (Hname : params.name p = n) by (subst p; reflexivity).
  apply reconcile_present_effect in H as (s1 & Hs1 & Hc); auto.
  rewrite Hn in Hacc. cbn in Hacc. rewrite Hname in Hs1.
  specialize (Hacc _ Hs1). rewrite <- Hname in Hs1.
  destruct (reconcile_converged p w1 [] s1 Hst Hs1 Hacc (Hc Hacc)) as [h E].
  rewrite E. eauto.
Qed.

Lemma second_run_reports_unchanged_witness :
  ∃ r2 tr2,
    run (main true desired_two)
      (fst (snd (run (main true desired_two) (cloud_with [observed_two]))))
    = (ExitJson r2,
       (fst (snd (run (main true desired_two) (cloud_with [observed_two]))), tr2))
    ∧ changed_of r2 = false.
Proof.
  refine (second_run_reports_unchanged true desired_two
            (cloud_with [observed_two]) _ _ _ eq_refl eq_refl _).
  intros s Hs. vm_compute in Hs. inversion Hs. reflexivity.
Defined.

(** C9: with an image reference that resolves to nothing, [main] goes on to
    the boot: the answer of [get_image_id] is not checked, and
    [create_server] is called with no image (and no root volume). *)
Theorem boot_proceeds_without_image :
  let r := run (main true unknown_image_task) (cloud_with []) in
  List.filter is_create_with_no_image (snd (snd r)) ≠ []
  ∧ (∃ x, fst r = ExitJson x ∧ changed_of x = true)
  ∧ map server_name (servers (fst (snd r))) = ["vm1"].
Proof.
  vm_compute. split; [discriminate|]. split; [|reflexivity].
  eexists. split; reflexivity.
Qed.

End claims.

Module witnesses.
Import provider provider_terms provider_facts examples claims.

Lemma spec_conflict_before_any_call_witness :
  (∃ x y,
     In (x, y) mutually_exclusive_pairs
     ∧ run (main true (task (Some "ubuntu") (Some "m1.small") (Some true)
                         (Some ["10.0.0.3"]) None None None))
         (cloud_with [])
       = (FailJson (mutually_exclusive x y), (cloud_with [], [])))
  ∧ (∃ f,
       run (main true (task None (Some "m1.small") None None None None None))
         (cloud_with [])
       = (FailJson f, (cloud_with [], []))
       ∧ SpecConflict f).
Proof.
  split.
  - apply (proj1 spec_conflict_before_any_call). left. reflexivity.
  - apply (proj2 spec_conflict_before_any_call _ "vm1");
      [reflexivity|reflexivity|left; split; reflexivity].
Defined.

Lemma error_state_not_remediated_witness :
  ∃ tr,
    run (main true auto_task) (cloud_with [vm1 "ERROR" [fx "192.168.0.5"]])
    = (FailJson
         (fail_msg "The instance is available but not Active state: ERROR" None),
       (cloud_with [vm1 "ERROR" [fx "192.168.0.5"]], tr))
    ∧ tr = [c_openstack_cloud (pop_userdata (argument_spec "vm1" auto_task));
            c_get_server "vm1"]
    ∧ List.filter is_create_or_delete tr = [].
Proof.
  exact (error_state_not_remediated auto_task (argument_spec "vm1" auto_task)
           (cloud_with [vm1 "ERROR" [fx "192.168.0.5"]]) _ _
           (vm1 "ERROR" [fx "192.168.0.5"])
           eq_refl eq_refl eq_refl eq_refl eq_refl).
Defined.

Lemma transitional_status_fails_at_once_witness :
  run (main true auto_task) (cloud_with [vm1 "BUILD" [fx "192.168.0.5"]])
  = (FailJson
       (fail_msg "The instance is available but not Active state: BUILD" None),
     (cloud_with [vm1 "BUILD" [fx "192.168.0.5"]],
      [c_openstack_cloud (pop_userdata (argument_spec "vm1" auto_task));
       c_get_server "vm1"])).
Proof.
  exact (transitional_status_fails_at_once auto_task
           (argument_spec "vm1" auto_task)
           (cloud_with [vm1 "BUILD" [fx "192.168.0.5"]]) _ _
           (vm1 "BUILD" [fx "192.168.0.5"])
           eq_refl eq_refl eq_refl eq_refl eq_refl).
Defined.

Lemma delete_of_absent_instance_is_unchanged_witness :
  ∃ r tr,
    run (main true absent_task) (cloud_with []) = (ExitJson r, (cloud_with [], tr))
    ∧ changed_of r = false
    ∧ r = exit_result_of false "not present"
    ∧ List.filter is_create_or_delete tr = [].
Proof.
  exact (delete_of_absent_instance_is_unchanged absent_task
           (argument_spec "vm1" absent_task) (cloud_with []) _ _
           eq_refl eq_refl eq_refl eq_refl).
Defined.

Lemma auto_assign_adds_one_or_nothing_witness :
  run (_check_floating_ips (argument_spec "vm1" auto_task)
         (vm1 "ACTIVE" [fx "192.168.0.5"]))
    (cloud_with [vm1 "ACTIVE" [fx "192.168.0.5"]])
  = (Return (true, vm1 "ACTIVE" [fx "192.168.0.5"; fl "10.0.0.3"]),
     (fst (snd (run (_check_floating_ips (argument_spec "vm1" auto_task)
                       (vm1 "ACTIVE" [fx "192.168.0.5"]))
                  (cloud_with [vm1 "ACTIVE" [fx "192.168.0.5"]]))),
      [c_add_ips_to_server (vm1 "ACTIVE" [fx "192.168.0.5"]) true None None]))
  ∧ run (_check_floating_ips (argument_spec "vm1" auto_task) observed_two)
      (cloud_with [observed_two])
    = (Return (false, observed_two), (cloud_with [observed_two], [])).
Proof.
  split.
  - exact (proj1 (auto_assign_adds_one_or_nothing
                    (argument_spec "vm1" auto_task)
                    (vm1 "ACTIVE" [fx "192.168.0.5"])
                    (cloud_with [vm1 "ACTIVE" [fx "192.168.0.5"]]) []
                    eq_refl eq_refl eq_refl) eq_refl).
  - refine (proj2 (auto_assign_adds_one_or_nothing
                     (argument_spec "vm1" auto_task) observed_two
                     (cloud_with [observed_two]) []
                     eq_refl eq_refl eq_refl) _).
    discriminate.
Defined.

Lemma network_entries_skipped_or_kept_in_order_witness :
  _network_args
    (with_nics [nic "net-id" "n-1"; nic "v4-fixed-ip" "10.1.0.9"; nic "port-id" "p-1"])
    (cloud_with [], [])
  = _network_args (with_nics [nic "net-id" "n-1"; nic "port-id" "p-1"])
      (cloud_with [], [])
  ∧ Forall2 emitted
      (List.filter recognised
         [nic "net-name" "private"; nic "v4-fixed-ip" "10.1.0.9";
          nic "port-id" "p-1"])
      [nic "net-id" "net-1"; nic "port-id" "p-1"].
Proof.
  split.
  - apply (proj1 network_entries_skipped_or_kept_in_order _ _
             [nic "net-id" "n-1"] (nic "v4-fixed-ip" "10.1.0.9")
             [nic "port-id" "p-1"]); reflexivity.
  - apply (proj2 network_entries_skipped_or_kept_in_order
             (with_nics [nic "net-name" "private"; nic "v4-fixed-ip" "10.1.0.9";
                         nic "port-id" "p-1"])
             (cloud_with [], [])
             (cloud_with [],
              [c_get_network "private"])).
    reflexivity.
Defined.

End witnesses.

(** * Further properties of the module *)

(** ** What a computation may issue *)

Section issues_only_facts.

Context {W : Type} {cloud : shade_cloud W}.

Lemma issues_only_ret {A : Type} P (a : A) : issues_only (W:=W) P (ret a).
Proof.
  intros w tr out w' tr' H. inversion H; subst. exists [].
  rewrite app_nil_r. split; [reflexivity|constructor].
Qed.

Lemma issues_only_fail_json {A : Type} P f : issues_only (W:=W) (A:=A) P (fail_json f).
Proof.
  intros w tr out w' tr' H. inversion H; subst. exists [].
  rewrite app_nil_r. split; [reflexivity|constructor].
Qed.

Lemma issues_only_exit_json {A : Type} P r : issues_only (W:=W) (A:=A) P (exit_json r).
Proof.
  intros w tr out w' tr' H. inversion H; subst. exists [].
  rewrite app_nil_r. split; [reflexivity|constructor].
Qed.

Lemma issues_only_call {A : Type} (P : Call → bool) c (op : W → res A * W) :
  P c = true → issues_only P (call c op).
Proof.
  intros Hc w tr out w' tr' H. unfold call in H. cbn [fst snd] in H.
  destruct (op w) as [r w1]. inversion H; subst. exists [c].
  split; [reflexivity|]. constructor; [exact Hc|constructor].
Qed.

Lemma issues_only_bind {A B : Type} P (m : M W A) (k : A → M W B) :
  issues_only P m → (∀ a, issues_only P (k a)) → issues_only P (bind m k).
Proof.
  intros Hm Hk w tr out w' tr' H. unfold bind in H.
  destruct (m (w, tr)) as [o [w1 tr1]] eqn:E.
  apply Hm in E as (n1 & -> & F1).
  destruct o; try (inversion H; subst; exists n1; split; [reflexivity|exact F1]).
  apply Hk in H as (n2 & -> & F2). exists (n1 ++ n2).
  rewrite app_assoc. split; [reflexivity|]. apply Forall_app. split; assumption.
Qed.

Lemma issues_only_try {A : Type} P (m : M W A) h :
  issues_only P m → (∀ e k, h e = Some k → issues_only P k) →
  issues_only P (try_except m h).
Proof.
  intros Hm Hh w tr out w' tr' H. unfold try_except in H.
  destruct (m (w, tr)) as [o [w1 tr1]] eqn:E.
  apply Hm in E as (n1 & -> & F1).
  destruct o; try (inversion H; subst; exists n1; split; [reflexivity|exact F1]).
  destruct (h e) as [k|] eqn:Eh.
  - apply (Hh _ _ Eh) in H as (n2 & -> & F2). exists (n1 ++ n2).
    rewrite app_assoc. split; [reflexivity|]. apply Forall_app. split; assumption.
  - inversion H; subst. exists n1. split; [reflexivity|exact F1].
Qed.

Lemma issues_only_weaken {A : Type} (P Q : Call → bool) (m : M W A) :
  (∀ c, P c = true → Q c = true) → issues_only P m → issues_only Q m.
Proof.
  intros HPQ Hm w tr out w' tr' H. apply Hm in H as (new & -> & F).
  exists new. split; [reflexivity|]. eapply Forall_impl; [exact F|exact HPQ].
Qed.

End issues_only_facts.

Ltac issues :=
  repeat first
    [ apply issues_only_ret
    | apply issues_only_fail_json
    | apply issues_only_exit_json
    | apply issues_only_call; reflexivity
    | apply issues_only_bind; [|intros ?]
    | match goal with
      | |- issues_only _ (if ?b then _ else _) => destruct b
      | |- issues_only _ (match ?x with _ => _ end) => destruct x
      end ].

Section footprints.

Context {W : Type} {cloud : shade_cloud W}.

Lemma _network_args_loop_issues P nics acc :
  (∀ c, is_network_lookup c = true → P c = true) →
  issues_only (W:=W) P (_network_args_loop nics acc).
Proof.
  intros HP. apply (issues_only_weaken is_network_lookup); [exact HP|].
  revert acc. induction nics as [|net nics IH]; intros acc; cbn.
  - apply issues_only_ret.
  - issues; apply IH.
Qed.

Lemma _delete_floating_ip_list_issues P s extra :
  (∀ c, is_removal c = true → P c = true) →
  issues_only (W:=W) P (_delete_floating_ip_list s extra).
Proof.
  intros HP. apply (issues_only_weaken is_removal); [exact HP|].
  induction extra as [|ip extra IH]; cbn.
  - apply issues_only_ret.
  - issues. apply IH.
Qed.

Lemma _check_floating_ips_issues P p s :
  (∀ c, is_floating_call c = true → P c = true) →
  issues_only (W:=W) P (_check_floating_ips p s).
Proof.
  intros HP. apply (issues_only_weaken is_floating_call); [exact HP|].
  unfold _check_floating_ips. cbn zeta.
  issues; apply _delete_floating_ip_list_issues; now destruct c.
Qed.

Lemma _exit_hostvars_issues {A : Type} P s c :
  P (c_get_hostvars_from_server s) = true →
  issues_only (W:=W) (A:=A) P (_exit_hostvars s c).
Proof.
  intros HP. unfold _exit_hostvars. apply issues_only_bind.
  - now apply issues_only_call.
  - intros h. apply issues_only_exit_json.
Qed.

Lemma _create_server_issues P p :
  (∀ c, creation_calls c = true → P c = true) →
  issues_only (W:=W) P (_create_server p).
Proof.
  intros HP. apply (issues_only_weaken creation_calls); [exact HP|].
  unfold _create_server. cbn zeta.
  issues; try (apply _exit_hostvars_issues; reflexivity).
  all: apply _network_args_loop_issues; intros c Hc; now destruct c.
Qed.

Lemma _delete_server_issues p : issues_only (W:=W) absent_calls (_delete_server p).
Proof.
  unfold _delete_server. apply issues_only_bind.
  - apply issues_only_try; [now apply issues_only_call|].
    intros e k E. inversion E; subst. apply issues_only_fail_json.
  - intros _. apply issues_only_exit_json.
Qed.

End footprints.

(** ** How a run ends, and what it may call *)

Ltac walk H :=
  match type of H with
  | context [match ?x with _ => _ end] =>
      lazymatch x with
      | context [match _ with _ => _ end] => fail
      | _ => destruct x eqn:?
      end
  end; cbn [fst snd] in H; try discriminate.

Section runs.

Context {W : Type} {cloud : shade_cloud W}.

Lemma _exit_hostvars_never_returns {A : Type} s c (st st' : W * list Call) (u : A) :
  _exit_hostvars s c st ≠ (Return u, st').
Proof.
  unfold _exit_hostvars, bind, call, exit_json.
  destruct (get_hostvars_from_server s st.1) as [[e|h] w1]; discriminate.
Qed.

Lemma _create_server_never_returns p (st st' : W * list Call) u :
  _create_server p st ≠ (Return u, st').
Proof.
  intros H. unfold _create_server, bind, call, ret, fail_json in H.
  cbn zeta in H. repeat walk H.
  all: now apply _exit_hostvars_never_returns in H.
Qed.

Lemma _delete_server_never_returns p (st st' : W * list Call) u :
  _delete_server p st ≠ (Return u, st').
Proof.
  unfold _delete_server, try_except, bind, call, fail_json, exit_json.
  destruct (delete_server _ _ _ st.1) as [[e|[]] w1]; discriminate.
Qed.

Lemma reconcile_block_reported p (st : W * list Call) :
  reported (fst (reconcile_block p st)).
Proof.
  unfold reconcile_block, try_except.
  match goal with |- context [match ?m st with _ => _ end] =>
    destruct (m st) as [o st1] eqn:E end.
  destruct o as [u| | |[m x|m]]; cbn; auto.
  unfold bind at 1, call at 1 in E.
  destruct (openstack_cloud (pop_userdata p) st.1) as [[e|[]] w1]; [discriminate|].
  destruct (params.state p); unfold bind in E.
  - destruct (_get_server_state p _) as [[b| | |] st2]; try discriminate.
    now apply _create_server_never_returns in E.
  - destruct (_get_server_state p _) as [[b| | |] st2]; try discriminate.
    now apply _delete_server_never_returns in E.
Qed.

(** A run of [main] always reports: it ends in [exit_json], in [fail_json],
    or in an exception that is not the cloud client's; it never falls off
    the end, and an [OpenStackCloudException] never escapes. *)
Theorem main_always_reports HAS_SHADE a (w : W) :
  reported (fst (run (main HAS_SHADE a) w)).
Proof.
  unfold run. rewrite main_validation.
  destruct (validation HAS_SHADE a) as [f|p]; [exact I|].
  apply reconcile_block_reported.
Qed.

(** Without shade nothing is attempted: [main] fails before any call, with
    the argument layer's refusal if there is one, else with "shade is
    required for this module". *)
Theorem no_shade_no_call a (w : W) :
  ∃ f, run (main false a) w = (FailJson f, (w, []))
       ∧ match f with
         | mutually_exclusive x y => In (x, y) mutually_exclusive_pairs
         | missing_required k => k = "name"
         | fail_msg m x => m = "shade is required for this module" ∧ x = None
         end.
Proof.
  unfold run. rewrite main_validation. unfold validation.
  destruct (first_conflict a mutually_exclusive_pairs) as [[x y]|] eqn:E.
  - eexists. split; [reflexivity|]. now apply first_conflict_listed in E.
  - destruct (args.name a); cbn; eexists; (split; [reflexivity|]); cbn; auto.
Qed.

(** A refused connection ends the run at once: the cloud client's exception
    becomes a failure carrying its message and extra data, any other
    exception escapes, and in both cases the connection is the only call. *)
Theorem connection_failure_is_reported (a : args.t) (p : params.t) (w w0 : W) e :
  validation true a = inr p →
  openstack_cloud (pop_userdata p) w = (inl e, w0) →
  run (main true a) w
  = (match e with
     | OpenStackCloudException m x => FailJson (fail_msg m x)
     | Exception _ => Raised e
     end,
     (w0, [c_openstack_cloud (pop_userdata p)])).
Proof.
  intros Hv Hc. unfold run. rewrite main_validation, Hv.
  unfold reconcile_block, try_except, bind, call. cbn [fst snd].
  rewrite Hc. destruct e; reflexivity.
Qed.

(** With target state absent, an instance found under the name is deleted
    whatever its status: one [delete_server] call with the name, [wait] and
    [timeout], then changed=True, result "deleted". *)
Theorem absent_deletes_in_any_status
  (a : args.t) (p : params.t) (w w0 w1 w2 : W) s :
  validation true a = inr p →
  params.state p = absent →
  openstack_cloud (pop_userdata p) w = (inr tt, w0) →
  get_server (params.name p) w0 = (inr (Some s), w1) →
  delete_server (params.name p) (params.wait p) (params.timeout p) w1 = (inr tt, w2) →
  run (main true a) w
  = (ExitJson (exit_result_of true "deleted"),
     (w2, [c_openstack_cloud (pop_userdata p); c_get_server (params.name p);
           c_delete_server (params.name p) (params.wait p) (params.timeout p)])).
Proof.
  intros Hv Hs Hc Hg Hd. unfold run. rewrite main_validation, Hv.
  unfold reconcile_block, try_except, bind, call. cbn [fst snd].
  rewrite Hc, Hs. unfold _get_server_state, bind, call. cbn [fst snd].
  rewrite Hg, Hs. cbn [state_eqb andb ret].
  unfold _delete_server, try_except, bind, call. cbn [fst snd].
  rewrite Hd. reflexivity.
Qed.

(** A deletion that raises, whatever the exception, is reported as the
    failure "Error in deleting vm: " followed by the exception's message;
    the exception's extra data is dropped. *)
Theorem delete_failure_is_reported
  (a : args.t) (p : params.t) (w w0 w1 w2 : W) s e :
  validation true a = inr p →
  params.state p = absent →
  openstack_cloud (pop_userdata p) w = (inr tt, w0) →
  get_server (params.name p) w0 = (inr (Some s), w1) →
  delete_server (params.name p) (params.wait p) (params.timeout p) w1 = (inl e, w2) →
  run (main true a) w
  = (FailJson (fail_msg ("Error in deleting vm: " +:+ exn_message e) None),
     (w2, [c_openstack_cloud (pop_userdata p); c_get_server (params.name p);
           c_delete_server (params.name p) (params.wait p) (params.timeout p)])).
Proof.
  intros Hv Hs Hc Hg Hd. unfold run. rewrite main_validation, Hv.
  unfold reconcile_block, try_except, bind, call. cbn [fst snd].
  rewrite Hc, Hs. unfold _get_server_state, bind, call. cbn [fst snd].
  rewrite Hg, Hs. cbn [state_eqb andb ret].
  unfold _delete_server, try_except, bind, call. cbn [fst snd].
  rewrite Hd. reflexivity.
Qed.

Lemma validation_state HAS_SHADE a p :
  validation HAS_SHADE a = inr p → params.state p = default present (args.state a).
Proof.
  unfold validation. intros H.
  destruct (first_conflict a mutually_exclusive_pairs) as [[x y]|]; [discriminate|].
  destruct (args.name a) as [n|]; [|discriminate].
  repeat match type of H with
         | context [if ?b then _ else _] => destruct b; try discriminate
         end.
  now inversion H.
Qed.

Lemma run_issues P HAS_SHADE a (w : W) :
  (∀ p, validation HAS_SHADE a = inr p → issues_only P (reconcile_block p)) →
  Forall (fun c => P c = true) (snd (snd (run (main HAS_SHADE a) w))).
Proof.
  intros H. unfold run. rewrite main_validation.
  destruct (validation HAS_SHADE a) as [f|p]; [constructor|].
  destruct (reconcile_block p (w, [])) as [out [w' tr']] eqn:E.
  apply (H p eq_refl) in E as (new & -> & F). exact F.
Qed.

Ltac handler :=
  let e := fresh "e" in
  let k := fresh "k" in
  let E := fresh "E" in
  intros e k E; destruct e; inversion E; subst; apply issues_only_fail_json.

(** With target state absent, a run calls nothing but the connection, the
    lookup of the instance and [delete_server]: no image, flavor or network
    is resolved and no floating address is touched. *)
Theorem absent_run_only_looks_up_and_deletes HAS_SHADE a (w : W) :
  default present (args.state a) = absent →
  Forall (fun c => absent_calls c = true) (snd (snd (run (main HAS_SHADE a) w))).
Proof.
  intros Ha. apply run_issues. intros p Hv.
  apply validation_state in Hv. rewrite Ha in Hv.
  unfold reconcile_block. rewrite Hv. apply issues_only_try; [|handler].
  apply issues_only_bind; [now apply issues_only_call|intros _].
  apply issues_only_bind; [|intros _; apply _delete_server_issues].
  unfold _get_server_state. rewrite Hv. cbn [state_eqb]. issues.
Qed.

(** With target state present, a run never calls [delete_server], however
    it ends. *)
Theorem present_run_never_deletes HAS_SHADE a (w : W) :
  target_present a →
  Forall (fun c => is_delete c = false) (snd (snd (run (main HAS_SHADE a) w))).
Proof.
  intros Ha.
  assert (H : Forall (fun c => negb (is_delete c) = true)
                (snd (snd (run (main HAS_SHADE a) w)))).
  { apply run_issues. intros p Hv.
    apply validation_state in Hv. unfold target_present in Ha. rewrite Ha in Hv.
    unfold reconcile_block. rewrite Hv. apply issues_only_try; [|handler].
    apply issues_only_bind; [now apply issues_only_call|intros _].
    apply issues_only_bind.
    - unfold _get_server_state. rewrite Hv. cbn [state_eqb].
      issues;
        first [ apply _check_floating_ips_issues; intros c Hc; now destruct c
              | now apply _exit_hostvars_issues ].
    - intros _. apply _create_server_issues. intros c Hc. now destruct c. }
  eapply Forall_impl; [exact H|]. intros c Hc. now apply negb_true_iff.
Qed.

(** An instance found under the name is never recreated: with target state
    present, whatever its status and whatever the spec says of image and
    flavor, the run calls only the connection, the lookup, the floating
    address operations and the host variables. *)
Theorem found_instance_is_never_recreated
  (a : args.t) (p : params.t) (w w0 w1 : W) s :
  validation true a = inr p →
  params.state p = present →
  openstack_cloud (pop_userdata p) w = (inr tt, w0) →
  get_server (params.name p) w0 = (inr (Some s), w1) →
  Forall (fun c => convergence_calls c = true) (snd (snd (run (main true a) w))).
Proof.
  intros Hv Hs Hc Hg. unfold run. rewrite main_validation, Hv.
  unfold reconcile_block, try_except.
  unfold bind at 1, call at 1. cbn [fst snd]. rewrite Hc, Hs.
  unfold bind at 1. unfold _get_server_state. rewrite Hs.
  unfold bind at 1 2, call at 1. cbn [fst snd]. rewrite Hg.
  cbn [state_eqb]. unfold bind at 1 2.
  destruct (py_in (status s) _); cbn [negb].
  2: { cbn. repeat constructor. }
  unfold ret at 1.
  destruct (_check_floating_ips p s _) as [out [w2 tr2]] eqn:E.
  apply (_check_floating_ips_issues convergence_calls) in E as (new & -> & F).
  2: { intros c Hc'. now destruct c. }
  assert (F2 : Forall (fun c => convergence_calls c = true)
                 ([c_openstack_cloud (pop_userdata p);
                   c_get_server (params.name p)] ++ new))
    by (apply Forall_app; split; [repeat constructor|exact F]).
  destruct out as [[c s']|r|f|[m x|m]]; cbn [fst snd]; try exact F2.
  unfold _exit_hostvars, bind, call, exit_json. cbn [fst snd].
  destruct (get_hostvars_from_server s' w2) as [[[m x|m]|h] w3]; cbn [fst snd];
    (apply Forall_app; split; [exact F2|repeat constructor]).
Qed.

End runs.

(** ** Creation *)

Section creation.

Context {W : Type} {cloud : shade_cloud W}.

Lemma reconcile_block_creates p (w w0 w1 : W) tr :
  params.state p = present →
  openstack_cloud (pop_userdata p) w = (inr tt, w0) →
  get_server (params.name p) w0 = (inr None, w1) →
  reconcile_block p (w, tr)
  = try_except (_create_server p)
      (fun e =>
         match e with
         | OpenStackCloudException m x => Some (fail_json (fail_msg m x))
         | Exception _ => None
         end)
      (w1, tr ++ [c_openstack_cloud (pop_userdata p); c_get_server (params.name p)]).
Proof.
  intros Hs Hc Hg. unfold reconcile_block, try_except.
  unfold bind at 1, call at 1. cbn [fst snd]. rewrite Hc, Hs.
  unfold bind at 1. unfold _get_server_state. rewrite Hs.
  unfold bind at 1 2, call at 1. cbn [fst snd]. rewrite Hg.
  cbn [state_eqb andb ret]. now rewrite <- app_assoc.
Qed.

(** A flavor that does not resolve stops the boot: with no instance under
    the name and the image resolved, a flavor lookup that finds nothing
    makes [main] fail with "Could not find flavor <flavor>" (by reference)
    or "Could not find any matching flavor" (by capacity); no network is
    looked up and [create_server] is not called. *)
Theorem flavor_not_found_stops_the_boot
  (a : args.t) (p : params.t) (w w0 w1 w2 w3 : W) i :
  validation true a = inr p →
  params.state p = present →
  openstack_cloud (pop_userdata p) w = (inr tt, w0) →
  get_server (params.name p) w0 = (inr None, w1) →
  truthy_str (params.root_volume p) = false →
  get_image_id (params.image p) (params.image_exclude p) w1 = (inr i, w2) →
  (if truthy_str (params.flavor p)
   then get_flavor (default "" (params.flavor p)) w2
   else get_flavor_by_ram (params.flavor_ram p) (params.flavor_include p) w2)
  = (inr None, w3) →
  run (main true a) w
  = (FailJson
       (fail_msg (if truthy_str (params.flavor p)
                  then "Could not find flavor " +:+ default "" (params.flavor p)
                  else "Could not find any matching flavor") None),
     (w3, [c_openstack_cloud (pop_userdata p); c_get_server (params.name p);
           c_get_image_id (params.image p) (params.image_exclude p);
           flavor_call p])).
Proof.
  intros Hv Hs Hc Hg Hr Hi Hf. unfold run. rewrite main_validation, Hv.
  erewrite reconcile_block_creates; eauto.
  unfold try_except, _create_server, flavor_call. cbn zeta.
  rewrite Hr. cbn [negb]. unfold bind at 1, call at 1. cbn [fst snd]. rewrite Hi.
  unfold bind at 1.
  destruct (truthy_str (params.flavor p)); unfold bind at 1, call at 1;
    cbn [fst snd]; rewrite Hf; reflexivity.
Qed.

(** A boot from a root volume resolves no image: when [root_volume] is set,
    [_create_server] never calls [get_image_id], and the boot it requests
    names no image. *)
Theorem root_volume_boot_resolves_no_image (p : params.t) :
  truthy_str (params.root_volume p) = true →
  issues_only (W:=W) image_free (_create_server p).
Proof.
  intros Hr. unfold _create_server. cbn zeta. rewrite Hr. cbn [negb].
  intros w tr out w' tr' H. unfold bind at 1, ret at 1 in H.
  revert w tr out w' tr' H.
  change (issues_only (W:=W) (A:=unit) image_free
            (flavor_dict <-
               (if truthy_str (params.flavor p)
                then
                  flavor_dict <- call (c_get_flavor (default "" (params.flavor p)))
                                   (get_flavor (default "" (params.flavor p)));;
                  match flavor_dict with
                  | Some f => ret f
                  | None =>
                      fail_json
                        (fail_msg ("Could not find flavor "
                                   +:+ default "" (params.flavor p)) None)
                  end
                else
                  flavor_dict <- call (c_get_flavor_by_ram (params.flavor_ram p)
                                         (params.flavor_include p))
                                   (get_flavor_by_ram (params.flavor_ram p)
                                      (params.flavor_include p));;
                  match flavor_dict with
                  | Some f => ret f
                  | None => fail_json (fail_msg "Could not find any matching flavor" None)
                  end);;
             nics <- _network_args p;;
             server <- call (c_create_server (boot_request p None flavor_dict nics))
                         (create_server (boot_request p None flavor_dict nics));;
             _exit_hostvars server true)).
  issues; try (apply _exit_hostvars_issues; reflexivity).
  all: apply _network_args_loop_issues; intros c Hc; now destruct c.
Qed.

(** A successful creation: with no instance under the name, once image,
    flavor and networks are resolved and [create_server] has answered, [main]
    exits with changed=True, the answered server, its id and its host
    variables.  The boot request carries the resolved ids, the floating
    address policy and [wait]/[timeout] untouched, and the calls come in the
    order connection, lookup, image, flavor, networks, boot, host variables. *)
Theorem creation_reports_changed
  (a : args.t) (p : params.t) (w w0 w1 w2 w3 w4 w5 w6 : W)
  i f nics tr4 s h :
  validation true a = inr p →
  params.state p = present →
  openstack_cloud (pop_userdata p) w = (inr tt, w0) →
  get_server (params.name p) w0 = (inr None, w1) →
  truthy_str (params.root_volume p) = false →
  get_image_id (params.image p) (params.image_exclude p) w1 = (inr i, w2) →
  (if truthy_str (params.flavor p)
   then get_flavor (default "" (params.flavor p)) w2
   else get_flavor_by_ram (params.flavor_ram p) (params.flavor_include p) w2)
  = (inr (Some f), w3) →
  _network_args p
    (w3, [c_openstack_cloud (pop_userdata p); c_get_server (params.name p);
          c_get_image_id (params.image p) (params.image_exclude p);
          flavor_call p])
  = (Return nics, (w4, tr4)) →
  create_server (boot_request p i f nics) w4 = (inr s, w5) →
  get_hostvars_from_server s w5 = (inr h, w6) →
  run (main true a) w
  = (ExitJson (exit_server true s (server_id s) h),
     (w6, tr4 ++ [c_create_server (boot_request p i f nics);
                  c_get_hostvars_from_server s])).
Proof.
  intros Hv Hs Hc Hg Hr Hi Hf Hn Hb Hh. unfold run.
  rewrite main_validation, Hv.
  erewrite reconcile_block_creates; eauto.
  unfold try_except, _create_server, flavor_call in *. cbn zeta.
  rewrite Hr. cbn [negb]. unfold bind at 1, call at 1. cbn [fst snd]. rewrite Hi.
  unfold bind at 1.
  destruct (truthy_str (params.flavor p)); unfold bind at 1, call at 1;
    cbn [fst snd]; rewrite Hf; unfold ret at 1; unfold bind at 1;
    cbn [app] in *; rewrite Hn; unfold bind at 1, call at 1; cbn [fst snd];
    fold (boot_request p i f nics); rewrite Hb;
    unfold _exit_hostvars, bind, call, exit_json; cbn [fst snd];
    rewrite Hh; now rewrite <- app_assoc.
Qed.

End creation.

Lemma concat_comma_head c h t :
  String.concat "," (String c h :: t) = String c (String.concat "," (h :: t)).
Proof. destruct t; reflexivity. Qed.

(** [security_groups.split(',')] loses nothing: the pieces joined by commas
    give the parameter back, no piece holds a comma, and there is always at
    least one piece (the empty string gives one empty group name). *)
Theorem security_groups_split_round_trip (s : string) :
  String.concat "," (split_comma s) = s
  ∧ split_comma s ≠ []
  ∧ Forall (fun x => has_comma x = false) (split_comma s).
Proof.
  induction s as [|c s (IH1 & IH2 & IH3)]; cbn [split_comma].
  - repeat split; [discriminate|repeat constructor].
  - destruct (Ascii.eqb c ","%char) eqn:E.
    + apply Ascii.eqb_eq in E. subst c.
      destruct (split_comma s) as [|h t]; [contradiction|].
      repeat split; [|discriminate|constructor; [reflexivity|exact IH3]].
      change (String.concat "," ("" :: h :: t))
        with (String "," (String.concat "," (h :: t))).
      now rewrite IH1.
    + destruct (split_comma s) as [|h t]; [contradiction|].
      repeat split; [|discriminate|].
      * now rewrite concat_comma_head, IH1.
      * inversion IH3; subst. constructor; [cbn; now rewrite E|assumption].
Qed.

(** ** Network arguments *)

Section network_args_more.

Context {W : Type} {cloud : shade_cloud W}.

Lemma _network_args_loop_by_id nics acc (st : W * list Call) :
  Forall (fun net => by_id net = true) nics →
  _network_args_loop nics acc st = (Return (acc ++ nics), st).
Proof.
  intros H. revert acc. induction H as [|net nics Hn _ IH]; intros acc; cbn.
  - now rewrite app_nil_r.
  - unfold by_id in Hn.
    destruct (truthy_str (net !! "net-id")); cbn in Hn.
    + rewrite IH, <- app_assoc. reflexivity.
    + apply andb_true_iff in Hn as [Hn1 Hn2]. apply negb_true_iff in Hn1.
      rewrite Hn1, Hn2, IH, <- app_assoc. reflexivity.
Qed.

(** Entries that name their network or port by id need no lookup: when
    every entry has a net-id, or a port-id and no net-name, [_network_args]
    makes no call and returns the entries as they are, whole and in order. *)
Theorem nics_by_id_pass_through (p : params.t) (st : W * list Call) :
  Forall (fun net => by_id net = true) (params.nics p) →
  _network_args p st = (Return (params.nics p), st).
Proof.
  intros H. unfold _network_args. now rewrite _network_args_loop_by_id.
Qed.

Lemma truthy_str_value o : truthy_str o = true → o = Some (default "" o).
Proof. destruct o; [reflexivity|discriminate]. Qed.

Lemma _network_args_loop_failure nics acc (w w' : W) tr tr' f :
  _network_args_loop nics acc (w, tr) = (FailJson f, (w', tr')) →
  ∃ net n before,
    In net nics
    ∧ Forall (fun c => is_network_lookup c = true) before
    ∧ ((net !! "net-name" = Some n
        ∧ f = fail_msg ("Could not find network by net-name: " +:+ n) None
        ∧ tr' = tr ++ before ++ [c_get_network n])
       ∨ (net !! "port-name" = Some n
          ∧ f = fail_msg ("Could not find port by port-name: " +:+ n) None
          ∧ tr' = tr ++ before ++ [c_get_port n])).
Proof.
  revert acc w tr. induction nics as [|net nics IH]; intros acc w tr H; cbn in H.
  - discriminate.
  - assert (Hrest : ∀ acc0 w0 before0,
              Forall (fun c => is_network_lookup c = true) before0 →
              _network_args_loop nics acc0 (w0, tr ++ before0)
              = (FailJson f, (w', tr')) →
              ∃ net0 n before,
                In net0 (net :: nics)
                ∧ Forall (fun c => is_network_lookup c = true) before
                ∧ ((net0 !! "net-name" = Some n
                    ∧ f = fail_msg ("Could not find network by net-name: " +:+ n) None
                    ∧ tr' = tr ++ before ++ [c_get_network n])
                   ∨ (net0 !! "port-name" = Some n
                      ∧ f = fail_msg ("Could not find port by port-name: " +:+ n) None
                      ∧ tr' = tr ++ before ++ [c_get_port n]))).
    { intros acc0 w0 before0 Hb Hl.
      apply IH in Hl as (net0 & n & before & Hin & Hf & Hcase).
      exists net0, n, (before0 ++ before). split; [now right|].
      split; [apply Forall_app; now split|].
      rewrite <- !app_assoc in Hcase. rewrite <- !app_assoc. exact Hcase. }
    destruct (truthy_str (net !! "net-id")) eqn:E1.
    { rewrite <- (app_nil_r tr) in H. exact (Hrest _ w [] (Forall_nil_2 _) H). }
    destruct (truthy_str (net !! "net-name")) eqn:E2.
    { unfold bind, call in H. cbn [fst snd] in H.
      destruct (get_network _ w) as [[e|[nw|]] w1]; try discriminate.
      - refine (Hrest _ w1 [c_get_network (default "" (net !! "net-name"))] _ H).
        now repeat constructor.
      - inversion H; subst. exists net, (default "" (net !! "net-name")), [].
        split; [now left|]. split; [constructor|]. left.
        split; [now apply truthy_str_value|]. split; reflexivity. }
    destruct (truthy_str (net !! "port-id")) eqn:E3.
    { rewrite <- (app_nil_r tr) in H. exact (Hrest _ w [] (Forall_nil_2 _) H). }
    destruct (truthy_str (net !! "port-name")) eqn:E4.
    { unfold bind, call in H. cbn [fst snd] in H.
      destruct (get_port _ w) as [[e|[nw|]] w1]; try discriminate.
      - refine (Hrest _ w1 [c_get_port (default "" (net !! "port-name"))] _ H).
        now repeat constructor.
      - inversion H; subst. exists net, (default "" (net !! "port-name")), [].
        split; [now left|]. split; [constructor|]. right.
        split; [now apply truthy_str_value|]. split; reflexivity. }
    rewrite <- (app_nil_r tr) in H. exact (Hrest _ w [] (Forall_nil_2 _) H).
Qed.

(** The only failure of [_network_args] is a name that does not resolve: it
    names the net-name or port-name of an entry of [nics], the lookup of
    that name is the last call made, and the entries after it are not
    looked up. *)
Theorem nics_failure_names_the_unresolved (p : params.t) (w w' : W) tr tr' f :
  _network_args p (w, tr) = (FailJson f, (w', tr')) →
  ∃ net n before,
    In net (params.nics p)
    ∧ Forall (fun c => is_network_lookup c = true) before
    ∧ ((net !! "net-name" = Some n
        ∧ f = fail_msg ("Could not find network by net-name: " +:+ n) None
        ∧ tr' = tr ++ before ++ [c_get_network n])
       ∨ (net !! "port-name" = Some n
          ∧ f = fail_msg ("Could not find port by port-name: " +:+ n) None
          ∧ tr' = tr ++ before ++ [c_get_port n])).
Proof. apply _network_args_loop_failure. Qed.

End network_args_more.

(** ** Floating addresses *)

Section floating_more.

Context {W : Type} {cloud : shade_cloud W}.

Lemma app_same {A : Type} (l new : list A) : l ++ new = l ↔ new = [].
Proof.
  split; [|intros ->; apply app_nil_r].
  intros H. apply (app_inv_head l). now rewrite app_nil_r.
Qed.

(** [_delete_floating_ip_list] removes the addresses in the order of the
    list, each from [server.id]; when it returns all of them were asked
    for, and when a removal raises it stops there, the addresses after it
    being left in place. *)
Theorem delete_list_stops_at_first_failure
  s extra (w w' : W) tr tr' out :
  _delete_floating_ip_list s extra (w, tr) = (out, (w', tr')) →
  ∃ gone rest,
    extra = gone ++ rest
    ∧ tr' = tr ++ map (c_remove_floating_ip (server_id s)) gone
    ∧ ((out = Return tt ∧ rest = []) ∨ (∃ e, out = Raised e ∧ gone ≠ [])).
Proof.
  revert w tr. induction extra as [|ip extra IH]; intros w tr H.
  - cbn in H. inversion H; subst. exists [], []. cbn. rewrite app_nil_r. auto.
  - cbn in H. unfold bind, call in H. cbn [fst snd] in H.
    destruct (remove_floating_ip (server_id s) ip w) as [[e|[]] w1].
    + inversion H; subst. exists [ip], extra.
      split; [reflexivity|]. split; [reflexivity|].
      right. exists e. split; [reflexivity|discriminate].
    + apply IH in H as (gone & rest & -> & -> & Hr).
      exists (ip :: gone), rest. rewrite <- app_assoc.
      split; [reflexivity|]. split; [reflexivity|].
      destruct Hr as [Hr|(e & He & _)]; [now left|].
      right. exists e. split; [exact He|discriminate].
Qed.

(** Without an explicit list the convergence step never removes an address:
    it does nothing at all (changed=False, same record) unless a policy is
    set and the record shows no floating address, in which case its one
    call is [add_ips_to_server]. *)
Theorem no_list_never_detaches p s (w w' : W) tr tr' out :
  truthy_list (params.floating_ips p) = false →
  _check_floating_ips p s (w, tr) = (out, (w', tr')) →
  (out = Return (false, s) ∧ w' = w ∧ tr' = tr)
  ∨ (policy_set p = true ∧ observed s = []
     ∧ tr' = tr ++ [c_add_ips_to_server s (params.auto_floating_ip p)
                      (params.floating_ips p) (params.floating_ip_pools p)]).
Proof.
  intros Hi H. destruct (policy_set p) eqn:Hp.
  2: { rewrite _check_floating_ips_no_policy in H by exact Hp.
       inversion H; subst. now left. }
  destruct (observed s) as [|x l] eqn:Ho.
  - rewrite _check_floating_ips_none_observed in H by auto.
    inversion H; subst. now right.
  - rewrite _check_floating_ips_some_no_list in H; auto.
    + inversion H; subst. now left.
    + rewrite Ho. discriminate.
Qed.

(** The step reports changed exactly when it called the cloud: when it
    returns, changed is True if and only if the trace has grown. *)
Theorem changed_iff_called p s (w w' : W) tr tr' c s' :
  _check_floating_ips p s (w, tr) = (Return (c, s'), (w', tr')) →
  c = true ↔ tr' ≠ tr.
Proof.
  intros H. destruct (truthy_list (params.floating_ips p)) eqn:Hi.
  - apply _check_floating_ips_calls in H as (t & gone & rest & Hx & -> & Hr); auto.
    destruct (Hr _ eq_refl) as [-> Hc]. cbn [fst] in Hc. subst c.
    rewrite app_nil_r in Hx. rewrite <- Hx. rewrite app_same.
    destruct (attach_calls p s) as [|a l]; cbn.
    + destruct (extra_ips p s); cbn; split; congruence.
    + split; [discriminate|reflexivity].
  - pose proof H as H'.
    apply no_list_never_detaches in H as [(E & _ & ->)|(Hp & Ho & ->)]; auto.
    + inversion E; subst. split; congruence.
    + rewrite _check_floating_ips_none_observed in H' by auto.
      rewrite app_same.
      destruct (fst (add_ips_to_server _ _ _ _ w)); inversion H'; subst.
      split; [discriminate|reflexivity].
Qed.

(** After removals the step hands back the record from before them: with an
    explicit list of which nothing is missing, the returned record is the
    one the step was given (its address map still lists the removed
    addresses), the calls are the removals of the extra addresses from
    [server.id], and changed tells whether there were any. *)
Theorem record_is_not_refreshed_after_removal p s (w w' : W) tr tr' c s' :
  truthy_list (params.floating_ips p) = true →
  observed s ≠ [] →
  missing_ips p s = [] →
  _check_floating_ips p s (w, tr) = (Return (c, s'), (w', tr')) →
  s' = s
  ∧ c = nonempty (extra_ips p s)
  ∧ tr' = tr ++ map (c_remove_floating_ip (server_id s)) (extra_ips p s).
Proof.
  intros Hi Ho Hm H. unfold _check_floating_ips in H. rewrite Hi in H.
  rewrite orb_true_r in H. cbn [orb] in H.
  unfold missing_ips, extra_ips, observed, desired in *.
  destruct (openstack_find_nova_addresses (addresses s) floating) as [|i0 l] eqn:E;
    [done|].
  cbn [nonempty negb] in H. rewrite Hm in H. cbn [nonempty] in H.
  unfold bind at 1, ret at 1 in H. cbn [snd] in H.
  destruct (nonempty (List.filter _ (i0 :: l))) eqn:He.
  - unfold bind, ret in H.
    destruct (_delete_floating_ip_list s _ _) as [o [w2 tr2]] eqn:Hd.
    apply _delete_floating_ip_list_calls in Hd as (gone & rest & Hx & -> & Hr).
    destruct o; inversion H; subst.
    rewrite (Hr _ eq_refl), app_nil_r in Hx. now rewrite Hx.
  - inversion H; subst. destruct (List.filter _ (i0 :: l)); [|discriminate].
    cbn. now rewrite app_nil_r.
Qed.

End floating_more.

(** ** When a run reaches the cloud, and how a found instance is reported *)

Section reaching.

Context {W : Type} {cloud : shade_cloud W}.

Lemma first_conflict_pair_set a x y :
  first_conflict a mutually_exclusive_pairs = Some (x, y) → exclusive_pair_set a.
Proof.
  intros H. unfold first_conflict in H. apply find_some in H as [Hin Hb].
  cbn [fst snd] in Hb. unfold exclusive_pair_set, both_set.
  cbn in Hin.
  repeat destruct Hin as [Hin|Hin]; try contradiction; inversion Hin; subst;
    rewrite ?supplied_auto_floating_ip, ?supplied_floating_ips,
      ?supplied_floating_ip_pools, ?supplied_flavor, ?supplied_flavor_ram,
      ?supplied_image, ?supplied_root_volume in Hb; tauto.
Qed.

Lemma first_conflict_none a :
  first_conflict a mutually_exclusive_pairs = None ↔ ¬ exclusive_pair_set a.
Proof.
  split.
  - intros H Hs. apply exclusive_pair_conflict in Hs as (x & y & Hs). congruence.
  - intros H. destruct (first_conflict a mutually_exclusive_pairs) as [[x y]|] eqn:E;
      [|reflexivity].
    apply first_conflict_pair_set in E. contradiction.
Qed.

Lemma reconcile_block_first_call p (w : W) :
  ∃ rest, snd (snd (reconcile_block p (w, [])))
          = c_openstack_cloud (pop_userdata p) :: rest.
Proof.
  assert (H : issues_only (fun _ => true)
                (match params.state p with
                 | present => _get_server_state p ;;; _create_server p
                 | absent => _get_server_state p ;;; _delete_server p
                 end)).
  { destruct (params.state p); apply issues_only_bind.
    - unfold _get_server_state.
      issues; first [ now apply _check_floating_ips_issues
                    | now apply _exit_hostvars_issues ].
    - intros _. now apply _create_server_issues.
    - unfold _get_server_state.
      issues; first [ now apply _check_floating_ips_issues
                    | now apply _exit_hostvars_issues ].
    - intros _. eapply issues_only_weaken; [|apply _delete_server_issues]. auto. }
  unfold reconcile_block, try_except. unfold bind at 1, call at 1. cbn [fst snd app].
  destruct (openstack_cloud (pop_userdata p) w) as [[[m x|m]|[]] w0]; cbn; eauto.
  match goal with |- context [match ?m ?st with _ => _ end] =>
    destruct (m st) as [o [w1 tr1]] eqn:E end.
  apply H in E as (new & -> & _).
  destruct o as [u|r|f|[m x|m]]; cbn; eauto.
Qed.

(** [main] reaches the cloud exactly for the specs it accepts: some call is
    made if and only if shade is there, no mutually-exclusive pair is set,
    the name is given and, for target state present, an image or root volume
    and a flavor or flavor-by-capacity are given; and the first call of any
    run is the connection, made with the parameters minus [userdata]. *)
Theorem main_reaches_cloud_iff_accepted HAS_SHADE a (w : W) :
  (snd (snd (run (main HAS_SHADE a) w)) ≠ []
   ↔ HAS_SHADE = true
     ∧ ¬ exclusive_pair_set a
     ∧ is_some (args.name a) = true
     ∧ (target_present a →
        (truthy_str (args.image a) || truthy_str (args.root_volume a)) = true
        ∧ (truthy_str (args.flavor a) || truthy_int (args.flavor_ram a)) = true))
  ∧ (∀ c rest,
       snd (snd (run (main HAS_SHADE a) w)) = c :: rest →
       ∃ p, validation HAS_SHADE a = inr p ∧ c = c_openstack_cloud (pop_userdata p)
            ∧ params.userdata (pop_userdata p) = None).
Proof.
  unfold run. rewrite main_validation. split.
  - unfold validation, target_present.
    destruct (first_conflict a mutually_exclusive_pairs) as [[x y]|] eqn:E.
    { apply first_conflict_pair_set in E. cbn. split; [congruence|tauto]. }
    apply first_conflict_none in E.
    destruct (args.name a) as [n|]; cbn.
    2: { split; [congruence|]. intros (_ & _ & ? & _). discriminate. }
    destruct HAS_SHADE; cbn.
    2: { split; [congruence|]. intros (? & _). discriminate. }
    destruct (default present (args.state a)); cbn.
    + destruct (truthy_str (args.image a) || truthy_str (args.root_volume a)); cbn.
      2: { split; [congruence|]. intros (_ & _ & _ & H).
           destruct (H eq_refl). discriminate. }
      destruct (truthy_str (args.flavor a)), (truthy_int (args.flavor_ram a)); cbn.
      4: { split; [congruence|]. intros (_ & _ & _ & H).
           destruct (H eq_refl). discriminate. }
      all: match goal with |- context [reconcile_block ?p _] =>
             destruct (reconcile_block_first_call p w) as [rest ->] end.
      all: split; [intros _; repeat split; auto|discriminate].
    + match goal with |- context [reconcile_block ?p _] =>
        destruct (reconcile_block_first_call p w) as [rest ->] end.
      split; [intros _; repeat split; auto; discriminate|discriminate].
  - intros c rest H. destruct (validation HAS_SHADE a) as [f|p]; [discriminate|].
    destruct (reconcile_block_first_call p w) as [rest' E]. rewrite E in H.
    inversion H; subst. exists p. repeat split.
Qed.

Lemma reconcile_block_found p (w w0 w1 : W) s :
  params.state p = present →
  openstack_cloud (pop_userdata p) w = (inr tt, w0) →
  get_server (params.name p) w0 = (inr (Some s), w1) →
  py_in (status s) accepted_statuses = true →
  reconcile_block p (w, [])
  = match _check_floating_ips p s
            (w1, [c_openstack_cloud (pop_userdata p); c_get_server (params.name p)])
    with
    | (Return r, st) =>
        match _exit_hostvars (A:=unit) (snd r) (fst r) st with
        | (Raised (OpenStackCloudException m x), st') => (FailJson (fail_msg m x), st')
        | res => res
        end
    | (Raised (OpenStackCloudException m x), st) => (FailJson (fail_msg m x), st)
    | (ExitJson r, st) => (ExitJson r, st)
    | (FailJson f, st) => (FailJson f, st)
    | (Raised e, st) => (Raised e, st)
    end.
Proof.
  intros Hs Hc Hg Hacc. unfold reconcile_block, try_except.
  unfold bind at 1, call at 1. cbn [fst snd]. rewrite Hc, Hs.
  unfold bind at 1. unfold _get_server_state. rewrite Hs.
  unfold bind at 1 2, call at 1. cbn [fst snd]. rewrite Hg.
  cbn [state_eqb]. unfold bind at 1 2.
  unfold accepted_statuses in Hacc. rewrite Hacc. cbn [negb app]. unfold ret at 1.
  destruct (_check_floating_ips p s _) as [[r|r|f|[m x|m]] st]; try reflexivity.
  destruct (_exit_hostvars _ _ st) as [[u|r'|f|[m x|m]] st'] eqn:E; try reflexivity.
  now apply _exit_hostvars_never_returns in E.
Qed.

(** A found instance in an accepted status is reported as the convergence
    step left it: [main] exits with the step's changed flag, the record the
    step returned, that record's id and its host variables; nothing is
    looked up again. *)
Theorem found_instance_reports_the_step
  (a : args.t) (p : params.t) (w w0 w1 w2 w3 : W) s c s' tr2 h :
  validation true a = inr p →
  params.state p = present →
  openstack_cloud (pop_userdata p) w = (inr tt, w0) →
  get_server (params.name p) w0 = (inr (Some s), w1) →
  py_in (status s) accepted_statuses = true →
  _check_floating_ips p s
    (w1, [c_openstack_cloud (pop_userdata p); c_get_server (params.name p)])
  = (Return (c, s'), (w2, tr2)) →
  get_hostvars_from_server s' w2 = (inr h, w3) →
  run (main true a) w
  = (ExitJson (exit_server c s' (server_id s') h),
     (w3, tr2 ++ [c_get_hostvars_from_server s'])).
Proof.
  intros Hv Hs Hc Hg Hacc Hstep Hh. unfold run. rewrite main_validation, Hv.
  erewrite reconcile_block_found; eauto. rewrite Hstep.
  unfold _exit_hostvars, bind, call, exit_json. cbn [fst snd]. now rewrite Hh.
Qed.

(** An exception raised while converging the floating addresses ends the
    run where it was raised: the cloud client's exception is reported as a
    failure with its message and extra data; any other exception (the
    removals go through the compute client) escapes unreported. *)
Theorem convergence_exception_ends_the_run
  (a : args.t) (p : params.t) (w w0 w1 w2 : W) s e tr2 :
  validation true a = inr p →
  params.state p = present →
  openstack_cloud (pop_userdata p) w = (inr tt, w0) →
  get_server (params.name p) w0 = (inr (Some s), w1) →
  py_in (status s) accepted_statuses = true →
  _check_floating_ips p s
    (w1, [c_openstack_cloud (pop_userdata p); c_get_server (params.name p)])
  = (Raised e, (w2, tr2)) →
  run (main true a) w
  = (match e with
     | OpenStackCloudException m x => FailJson (fail_msg m x)
     | Exception _ => Raised e
     end, (w2, tr2)).
Proof.
  intros Hv Hs Hc Hg Hacc Hstep. unfold run. rewrite main_validation, Hv.
  erewrite reconcile_block_found; eauto. rewrite Hstep. destruct e; reflexivity.
Qed.

End reaching.

Module more_witnesses.
Import provider examples more_examples.

Lemma connection_failure_is_reported_witness :
  run (main true auto_task)
    (refused (Some (OpenStackCloudException "Authentication failed" (Some "401")))
       None [])
  = (FailJson (fail_msg "Authentication failed" (Some "401")),
     (refused (Some (OpenStackCloudException "Authentication failed" (Some "401")))
        None [],
      [c_openstack_cloud (pop_userdata (argument_spec "vm1" auto_task))])).
Proof.
  exact (connection_failure_is_reported auto_task (argument_spec "vm1" auto_task)
           (refused (Some (OpenStackCloudException "Authentication failed"
                             (Some "401"))) None [])
           _ _ eq_refl eq_refl).
Defined.

Lemma absent_deletes_in_any_status_witness :
  fst (run (main true absent_task) (cloud_with [vm1 "ERROR" [fx "192.168.0.5"]]))
  = ExitJson (exit_result_of true "deleted").
Proof.
  exact (f_equal fst
           (absent_deletes_in_any_status absent_task
              (argument_spec "vm1" absent_task)
              (cloud_with [vm1 "ERROR" [fx "192.168.0.5"]]) _ _ _
              (vm1 "ERROR" [fx "192.168.0.5"])
              eq_refl eq_refl eq_refl eq_refl eq_refl)).
Defined.

Lemma delete_failure_is_reported_witness :
  fst (run (main true absent_task)
         (refused None (Some (OpenStackCloudException "Conflict" (Some "409")))
            [vm1 "ACTIVE" [fx "192.168.0.5"]]))
  = FailJson (fail_msg "Error in deleting vm: Conflict" None).
Proof.
  exact (f_equal fst
           (delete_failure_is_reported absent_task
              (argument_spec "vm1" absent_task)
              (refused None (Some (OpenStackCloudException "Conflict" (Some "409")))
                 [vm1 "ACTIVE" [fx "192.168.0.5"]]) _ _ _
              (vm1 "ACTIVE" [fx "192.168.0.5"])
              (OpenStackCloudException "Conflict" (Some "409"))
              eq_refl eq_refl eq_refl eq_refl eq_refl)).
Defined.

Lemma absent_run_only_looks_up_and_deletes_witness :
  Forall (fun c => absent_calls c = true)
    (snd (snd (run (main true absent_task)
                 (cloud_with [vm1 "ACTIVE" [fx "192.168.0.5"]])))).
Proof.
  exact (absent_run_only_looks_up_and_deletes true absent_task
           (cloud_with [vm1 "ACTIVE" [fx "192.168.0.5"]]) eq_refl).
Defined.

Lemma present_run_never_deletes_witness :
  Forall (fun c => is_delete c = false)
    (snd (snd (run (main true auto_task) (cloud_with [])))).
Proof.
  exact (present_run_never_deletes true auto_task (cloud_with []) eq_refl).
Defined.

Lemma found_instance_is_never_recreated_witness :
  Forall (fun c => convergence_calls c = true)
    (snd (snd (run (main true desired_two) (cloud_with [observed_two])))).
Proof.
  exact (found_instance_is_never_recreated desired_two
           (argument_spec "vm1" desired_two) (cloud_with [observed_two]) _ _
           observed_two eq_refl eq_refl eq_refl eq_refl).
Defined.

Lemma flavor_not_found_stops_the_boot_witness :
  fst (run (main true unknown_flavor_task) (cloud_with []))
  = FailJson (fail_msg "Could not find flavor m9.huge" None).
Proof.
  exact (f_equal fst
           (flavor_not_found_stops_the_boot unknown_flavor_task
              (argument_spec "vm1" unknown_flavor_task) (cloud_with [])
              _ _ _ _ _ eq_refl eq_refl eq_refl eq_refl eq_refl eq_refl eq_refl)).
Defined.

Lemma root_volume_boot_resolves_no_image_witness :
  ∃ new,
    snd (snd (run (_create_server (argument_spec "vm1" volume_task)) (cloud_with [])))
    = [] ++ new
    ∧ Forall (fun c => image_free c = true) new.
Proof.
  exact (root_volume_boot_resolves_no_image (argument_spec "vm1" volume_task)
           eq_refl (cloud_with []) [] _ _ _ eq_refl).
Defined.

Lemma creation_reports_changed_witness :
  ∃ s h,
    fst (run (main true auto_task) (cloud_with []))
    = ExitJson (exit_server true s (server_id s) h).
Proof.
  refine (ex_intro _ _ (ex_intro _ _
            (f_equal fst
               (creation_reports_changed auto_task (argument_spec "vm1" auto_task)
                  (cloud_with []) _ _ _ _ _ _ _ _ _ _ _ _ _
                  eq_refl eq_refl eq_refl eq_refl eq_refl eq_refl eq_refl
                  eq_refl eq_refl eq_refl)))).
Defined.

Lemma nics_by_id_pass_through_witness :
  _network_args (with_nics [nic "net-id" "n-1"; nic "port-id" "p-1"])
    (cloud_with [], [])
  = (Return [nic "net-id" "n-1"; nic "port-id" "p-1"], (cloud_with [], [])).
Proof.
  apply (nics_by_id_pass_through
           (with_nics [nic "net-id" "n-1"; nic "port-id" "p-1"])).
  repeat constructor.
Defined.

Lemma nics_failure_names_the_unresolved_witness :
  ∃ net n before,
    In net [nic "net-id" "n-1"; nic "net-name" "nowhere"; nic "port-id" "p-1"]
    ∧ Forall (fun c => is_network_lookup c = true) before
    ∧ ((net !! "net-name" = Some n
        ∧ fail_msg "Could not find network by net-name: nowhere" None
          = fail_msg ("Could not find network by net-name: " +:+ n) None
        ∧ [c_get_network "nowhere"] = [] ++ before ++ [c_get_network n])
       ∨ (net !! "port-name" = Some n
          ∧ fail_msg "Could not find network by net-name: nowhere" None
            = fail_msg ("Could not find port by port-name: " +:+ n) None
          ∧ [c_get_network "nowhere"] = [] ++ before ++ [c_get_port n])).
Proof.
  exact (nics_failure_names_the_unresolved
           (with_nics [nic "net-id" "n-1"; nic "net-name" "nowhere";
                       nic "port-id" "p-1"])
           (cloud_with []) (cloud_with []) [] _ _ eq_refl).
Defined.

Lemma delete_list_stops_at_first_failure_witness :
  ∃ gone rest,
    ["10.0.0.1"; "10.0.0.2"] = gone ++ rest
    ∧ snd (snd (run (_delete_floating_ip_list (vm1 "ACTIVE" []) ["10.0.0.1"; "10.0.0.2"])
                  (cloud_with [])))
      = [] ++ map (c_remove_floating_ip "s-1") gone
    ∧ ((fst (run (_delete_floating_ip_list (vm1 "ACTIVE" []) ["10.0.0.1"; "10.0.0.2"])
               (cloud_with []))
        = Return tt ∧ rest = [])
       ∨ (∃ e,
            fst (run (_delete_floating_ip_list (vm1 "ACTIVE" [])
                        ["10.0.0.1"; "10.0.0.2"]) (cloud_with []))
            = Raised e ∧ gone ≠ [])).
Proof.
  exact (delete_list_stops_at_first_failure (vm1 "ACTIVE" [])
           ["10.0.0.1"; "10.0.0.2"] (cloud_with []) _ [] _ _ eq_refl).
Defined.

Lemma no_list_never_detaches_witness :
  (fst (run (_check_floating_ips (argument_spec "vm1" auto_task) observed_two)
          (cloud_with [observed_two]))
   = Return (false, observed_two)
   ∧ fst (snd (run (_check_floating_ips (argument_spec "vm1" auto_task) observed_two)
                 (cloud_with [observed_two])))
     = cloud_with [observed_two]
   ∧ snd (snd (run (_check_floating_ips (argument_spec "vm1" auto_task) observed_two)
                 (cloud_with [observed_two])))
     = [])
  ∨ (policy_set (argument_spec "vm1" auto_task) = true
     ∧ observed observed_two = []
     ∧ snd (snd (run (_check_floating_ips (argument_spec "vm1" auto_task)
                        observed_two) (cloud_with [observed_two])))
       = [] ++ [c_add_ips_to_server observed_two true None None]).
Proof.
  exact (no_list_never_detaches (argument_spec "vm1" auto_task) observed_two
           (cloud_with [observed_two]) _ [] _ _ eq_refl eq_refl).
Defined.

Lemma changed_iff_called_witness :
  true = true
  ↔ snd (snd (run (_check_floating_ips (argument_spec "vm1" desired_two)
                     observed_two) (cloud_with [observed_two])))
    ≠ [].
Proof.
  exact (changed_iff_called (argument_spec "vm1" desired_two) observed_two
           (cloud_with [observed_two]) _ [] _ true _ eq_refl).
Defined.

Lemma record_is_not_refreshed_after_removal_witness :
  observed_two = observed_two
  ∧ true = nonempty (extra_ips (argument_spec "vm1" shrink_task) observed_two)
  ∧ snd (snd (run (_check_floating_ips (argument_spec "vm1" shrink_task)
                     observed_two) (cloud_with [observed_two])))
    = [] ++ [c_remove_floating_ip "s-1" "10.0.0.1"].
Proof.
  refine (record_is_not_refreshed_after_removal
            (argument_spec "vm1" shrink_task) observed_two
            (cloud_with [observed_two])
            (fst (snd (run (_check_floating_ips (argument_spec "vm1" shrink_task)
                              observed_two) (cloud_with [observed_two]))))
            [] _ true observed_two eq_refl _ eq_refl eq_refl).
  discriminate.
Defined.

Lemma main_reaches_cloud_iff_accepted_witness :
  true = true
  ∧ ¬ exclusive_pair_set auto_task
  ∧ is_some (args.name auto_task) = true
  ∧ (target_present auto_task →
     (truthy_str (args.image auto_task) || truthy_str (args.root_volume auto_task))
     = true
     ∧ (truthy_str (args.flavor auto_task) || truthy_int (args.flavor_ram auto_task))
       = true).
Proof.
  refine (proj1 (proj1 (main_reaches_cloud_iff_accepted true auto_task
                          (cloud_with []))) _).
  vm_compute. discriminate.
Defined.

Lemma found_instance_reports_the_step_witness :
  ∃ s' h,
    fst (run (main true desired_two) (cloud_with [observed_two]))
    = ExitJson (exit_server true s' (server_id s') h).
Proof.
  refine (ex_intro _ _ (ex_intro _ _
            (f_equal fst
               (found_instance_reports_the_step desired_two
                  (argument_spec "vm1" desired_two) (cloud_with [observed_two])
                  _ _ _ _ observed_two true _ _ _
                  eq_refl eq_refl eq_refl eq_refl eq_refl eq_refl eq_refl)))).
Defined.

Lemma convergence_exception_ends_the_run_witness :
  fst (run (main true (task (Some "ubuntu") (Some "m1.small") None
                         (Some ["10.0.0.9"]) None None None))
         (cloud_with [observed_two]))
  = FailJson (fail_msg "Error attaching IP: not available" None).
Proof.
  exact (f_equal fst
           (convergence_exception_ends_the_run
              (task (Some "ubuntu") (Some "m1.small") None (Some ["10.0.0.9"])
                 None None None)
              (argument_spec "vm1"
                 (task (Some "ubuntu") (Some "m1.small") None (Some ["10.0.0.9"])
                    None None None))
              (cloud_with [observed_two]) _ _ _ observed_two
              (OpenStackCloudException "Error attaching IP: not available" None) _
              eq_refl eq_refl eq_refl eq_refl eq_refl eq_refl)).
Defined.

End more_witnesses.
